(** * Expression evaluator: tokenizer, shunting-yard converter, postfix evaluator

    A shallow embedding of [src/main.py] (functions [tokenize],
    [infix_to_postfix], [evaluate_postfix], [apply_op], [is_number],
    [evaluate_expression] and the table [OPERATORS]) and the properties the
    specification states about them.

    Conventions of the embedding.
    - A Python [str] is a [string]: one [ascii] per code point, so the texts
      covered are those whose code points are below 256.  A token is a [str],
      as in the source.
    - A Python [float] is a binary64 number, [PrimFloat.float]; [+ - * /] and
      negation are the IEEE operations, as in CPython.
    - A raised exception is the [Raise] outcome of [result]; the exception
      classes are the ones the source raises.
    - [tokens], [output] and [trace] are lists that grow at the end
      ([l.append(x)] is [l ++ [x]]).  The two lists used as stacks are kept
      top first: [stack[-1]] is the head, [stack.pop()] removes the head and
      [stack.append(x)] is [x :: stack].
    - [math.pow] is the C library's [pow] behind CPython's error checks; it is
      a parameter [math_pow] of the evaluator. *)

From Stdlib Require Import ZArith QArith Qabs List String Ascii Bool Lia.
From Stdlib Require Import PrimFloat FloatOps SpecFloat.
From Equations Require Import Equations.
From Stdlib Require Import Permutation.
Import ListNotations.
Close Scope Q_scope.
Open Scope string_scope.

(** ** Exceptions and outcomes *)

Inductive exception : Type :=
| ValueError (msg : string)
| ZeroDivisionError (msg : string)
| OverflowError (msg : string).

Inductive result (A : Type) : Type :=
| Ok (a : A)
| Raise (e : exception).
Arguments Ok {A} a.
Arguments Raise {A} e.

Definition bind {A B : Type} (r : result A) (k : A -> result B) : result B :=
  match r with
  | Ok a => k a
  | Raise e => Raise e
  end.

Notation "x <- r ;; k" := (bind r (fun x => k))
  (at level 61, r at next level, right associativity).
Notation "' pat <- r ;; k" := (bind r (fun x => match x with pat => k end))
  (at level 61, pat pattern, r at next level, right associativity).

(** The specification names the error kinds [SyntaxError] and
    [ArithmeticError]; in the source these are the exceptions [ValueError]
    and [ZeroDivisionError]. *)
Definition is_SyntaxError (e : exception) : bool :=
  match e with ValueError _ => true | _ => false end.

Definition is_ArithmeticError (e : exception) : bool :=
  match e with ZeroDivisionError _ => true | _ => false end.

(** ** Python built-ins used by the source *)

Module Py.

Definition code (c : ascii) : N := N_of_ascii c.

(** [str.isspace] on one character (code points below 256). *)
Definition isspace (c : ascii) : bool :=
  let n := code c in
  ((9 <=? n) && (n <=? 13) || (28 <=? n) && (n <=? 32)
   || (n =? 133) || (n =? 160))%N.

(** [str.isdigit] on one character: the ten ASCII digits and the
    superscripts two, three and one. *)
Definition isdigit (c : ascii) : bool :=
  let n := code c in
  ((48 <=? n) && (n <=? 57) || (n =? 178) || (n =? 179) || (n =? 185))%N.

(** [s.count(c)] for a one-character [c]. *)
Fixpoint count (c : ascii) (s : string) : nat :=
  match s with
  | String d rest => (if (d =? c)%char then 1 else 0) + count c rest
  | EmptyString => 0
  end.

(** [c in s] for a one-character [c]. *)
Fixpoint contains (s : string) (c : ascii) : bool :=
  match s with
  | String d rest => (d =? c)%char || contains rest c
  | EmptyString => false
  end.

(** [x in (t1, ..., tn)] for strings. *)
Definition in_tuple (x : string) (l : list string) : bool :=
  existsb (String.eqb x) l.

(** [l[-1] if l else None]. *)
Definition last_or_None (l : list string) : option string :=
  match rev l with
  | x :: _ => Some x
  | [] => None
  end.

(** *** [float(str)]

    CPython's conversion: non-ASCII spaces become blanks, underscores are
    allowed between digits only, blanks are stripped at both ends, and what
    is left is either a decimal literal (sign, digits, fraction, exponent),
    rounded to the nearest binary64 number with ties to even, or one of
    [inf], [infinity], [nan] in any letter case.  [None] stands for the
    [ValueError] that [float] raises. *)

Definition is_ascii_digit (c : ascii) : bool :=
  ((48 <=? code c) && (code c <=? 57))%N.

Definition is_c_space (c : ascii) : bool :=
  let n := code c in ((9 <=? n) && (n <=? 13) || (n =? 32))%N.

Definition to_ascii_space (c : ascii) : ascii :=
  if ((code c =? 133) || (code c =? 160))%N then " "%char else c.

Definition lower (c : ascii) : ascii :=
  if ((65 <=? code c) && (code c <=? 90))%N then ascii_of_N (code c + 32)
  else c.

Fixpoint map_str (f : ascii -> ascii) (s : string) : string :=
  match s with
  | String c r => String (f c) (map_str f r)
  | EmptyString => EmptyString
  end.

Fixpoint strip_underscores (s : string) (prev : ascii) : option string :=
  match s with
  | EmptyString => if (prev =? "_")%char then None else Some EmptyString
  | String c r =>
      if (c =? "_")%char then
        if is_ascii_digit prev then strip_underscores r c else None
      else if (prev =? "_")%char && negb (is_ascii_digit c) then None
      else option_map (String c) (strip_underscores r c)
  end.

Fixpoint lstrip (s : string) : string :=
  match s with
  | String c r => if is_c_space c then lstrip r else s
  | EmptyString => s
  end.

Fixpoint rstrip (s : string) : string :=
  match s with
  | String c r =>
      match rstrip r with
      | EmptyString => if is_c_space c then EmptyString else String c EmptyString
      | r' => String c r'
      end
  | EmptyString => s
  end.

(** Reads a run of ASCII digits: the number read so far, how many digits
    were read, and the rest of the text. *)
Fixpoint read_digits (s : string) (acc : Z) (n : Z) : Z * Z * string :=
  match s with
  | String c r =>
      if is_ascii_digit c
      then read_digits r (10 * acc + (Z.of_N (code c) - 48)) (n + 1)
      else (acc, n, s)
  | EmptyString => (acc, n, s)
  end.

Definition read_sign (s : string) : bool * string :=
  match s with
  | String "-" r => (true, r)
  | String "+" r => (false, r)
  | _ => (false, s)
  end.

(** The integer nearest to [a / b], ties to even ([0 <= a], [0 < b]). *)
Definition rne_div (a b : Z) : Z :=
  let q := (a / b)%Z in
  let r := (a mod b)%Z in
  if (2 * r <? b)%Z then q
  else if (b <? 2 * r)%Z then (q + 1)%Z
  else if Z.even q then q else (q + 1)%Z.

(** The binary64 number nearest to [n / d] ([0 < n], [0 < d]): 53 bits of
    mantissa, exponents from [-1074], overflow to infinity. *)
Definition round_to_double (n d : Z) : float :=
  let l := (Z.log2 n - Z.log2 d)%Z in
  let l := if (n * 2 ^ Z.max 0 (- l) <? d * 2 ^ Z.max 0 l)%Z
           then (l - 1)%Z else l in
  let e := Z.max (l - 52) (-1074) in
  let m := if (0 <=? e)%Z then rne_div n (d * 2 ^ e)
           else rne_div (n * 2 ^ (- e)) d in
  Z.ldexp (of_uint63 (Uint63Axioms.of_Z m)) e.

Definition decimal_to_double (neg : bool) (digits exp10 : Z) : float :=
  let x := if (digits =? 0)%Z then zero
           else if (0 <=? exp10)%Z then round_to_double (digits * 10 ^ exp10) 1
           else round_to_double digits (10 ^ (- exp10)) in
  if neg then (- x)%float else x.

Definition parse_decimal (s : string) : option float :=
  let '(neg, s1) := read_sign s in
  let '(ip, ni, s2) := read_digits s1 0 0 in
  let '(digits, nf, s3) :=
    match s2 with
    | String "." r => read_digits r ip 0
    | _ => (ip, 0%Z, s2)
    end in
  if (ni + nf =? 0)%Z then None
  else
    match s3 with
    | EmptyString => Some (decimal_to_double neg digits (- nf))
    | String c r =>
        if ((c =? "e") || (c =? "E"))%char then
          let '(eneg, s4) := read_sign r in
          match read_digits s4 0 0 with
          | (ev, ne, EmptyString) =>
              if (ne =? 0)%Z then None
              else Some (decimal_to_double neg digits
                           ((if eneg then - ev else ev) - nf))
          | _ => None
          end
        else None
    end.

Definition parse_inf_or_nan (s : string) : option float :=
  let '(neg, s1) := read_sign s in
  let w := map_str lower s1 in
  if (w =? "inf") || (w =? "infinity")
  then Some (if neg then neg_infinity else infinity)
  else if w =? "nan" then Some nan
  else None.

Definition float (s : string) : option PrimFloat.float :=
  match strip_underscores (map_str to_ascii_space s) "000"%char with
  | None => None
  | Some s1 =>
      let s2 := rstrip (lstrip s1) in
      match parse_decimal s2 with
      | Some x => Some x
      | None => parse_inf_or_nan s2
      end
  end.

End Py.

(** ** Tokenizer *)

(** The test of both number loops: [ch.isdigit() or ch == '.']. *)
Definition is_num_char (ch : ascii) : bool :=
  Py.isdigit ch || (ch =? ".")%char.

(** The inner [while] of the number branch, from text position [i] on:
    [num_chars] grows while the next character is a digit or a dot.  Returns
    [''.join(num_chars)] and the text from the position where it stopped. *)
Fixpoint scan_number (s : string) (num_chars : string) : string * string :=
  match s with
  | String c rest =>
      if is_num_char c then scan_number rest (num_chars ++ String c "")
      else (num_chars, s)
  | EmptyString => (num_chars, s)
  end.

(** The test on the previous token when a ['-'] is read:
    [prev is None or prev in ('+', '-', '*', '/', '^', '(', 'u-')], where
    [prev = tokens[-1] if tokens else None]. *)
Definition unary_context (tokens : list string) : bool :=
  match Py.last_or_None tokens with
  | None => true
  | Some prev => Py.in_tuple prev ["+"; "-"; "*"; "/"; "^"; "("; "u-"]
  end.

(** The main [while i < n] loop; [s] is [expr[i:]]. *)
Equations tokenize_loop (s : string) (tokens : list string)
  : result (list string) by wf (String.length s) lt :=
tokenize_loop EmptyString tokens := Ok tokens;
tokenize_loop (String ch rest) tokens :=
  if Py.isspace ch then tokenize_loop rest tokens
  else if is_num_char ch then
    let num_str := fst (scan_number rest (String ch "")) in
    if (1 <? Py.count "." num_str)%nat
    then Raise (ValueError ("Invalid numeric literal: " ++ num_str))
    else tokenize_loop (snd (scan_number rest (String ch "")))
                       (tokens ++ [num_str])
  else if Py.contains "+-*/^()" ch then
    if (ch =? "-")%char && unary_context tokens
    then tokenize_loop rest (tokens ++ ["u-"])
    else tokenize_loop rest (tokens ++ [String ch ""])
  else Raise (ValueError ("Unsupported character: '" ++ String ch "'")).
Next Obligation.
  assert (Hlen : forall s acc,
             String.length (snd (scan_number s acc)) <= String.length s).
  { induction s as [|c s IH]; simpl; intros acc; [lia|].
    destruct (is_num_char c); simpl; [specialize (IH (acc ++ String c "")); lia | lia]. }
  specialize (Hlen rest (String ch "")). lia.
Qed.

Definition tokenize (expr : string) : result (list string) :=
  tokenize_loop expr [].

(** ** Shunting yard: infix to postfix *)

Record op_info : Type := { prec : Z; assoc : string }.

Definition OPERATORS : list (string * op_info) :=
  [ ("+",  {| prec := 2; assoc := "L" |});
    ("-",  {| prec := 2; assoc := "L" |});
    ("*",  {| prec := 3; assoc := "L" |});
    ("/",  {| prec := 3; assoc := "L" |});
    ("^",  {| prec := 4; assoc := "R" |});
    ("u-", {| prec := 5; assoc := "R" |}) ].

(** [d[k]] when [k in d], [None] otherwise. *)
Fixpoint dict_get {V : Type} (d : list (string * V)) (k : string) : option V :=
  match d with
  | (k', v) :: d' => if k' =? k then Some v else dict_get d' k
  | [] => None
  end.

Definition is_number (token : string) : bool :=
  match Py.float token with
  | Some _ => true
  | None => false
  end.

(** The test of the [if] inside the operator loop, on [OPERATORS[o1]] and
    [OPERATORS[o2]]. *)
Definition pops (i1 i2 : op_info) : bool :=
  ((assoc i1 =? "L") && (prec i1 <=? prec i2)%Z)
  || ((assoc i1 =? "R") && (prec i1 <? prec i2)%Z).

(** [while stack and stack[-1] in OPERATORS: ...] for the operator [o1],
    [i1] being [OPERATORS[o1]].  Returns the stack and the output. *)
Fixpoint pop_operators (i1 : op_info) (stack output : list string)
  : list string * list string :=
  match stack with
  | o2 :: stack' =>
      match dict_get OPERATORS o2 with
      | Some i2 =>
          if pops i1 i2 then pop_operators i1 stack' (output ++ [o2])
          else (stack, output)
      | None => (stack, output)
      end
  | [] => (stack, output)
  end.

(** [while stack and stack[-1] != '(': output.append(stack.pop())]. *)
Fixpoint pop_to_paren (stack output : list string)
  : list string * list string :=
  match stack with
  | top :: stack' =>
      if top =? "(" then (stack, output)
      else pop_to_paren stack' (output ++ [top])
  | [] => (stack, output)
  end.

(** The final [while stack:] loop. *)
Fixpoint drain (stack output : list string) : result (list string) :=
  match stack with
  | top :: stack' =>
      if Py.in_tuple top ["("; ")"]
      then Raise (ValueError "Mismatched parentheses")
      else drain stack' (output ++ [top])
  | [] => Ok output
  end.

(** The [for tok in tokens] loop followed by the final loop. *)
Fixpoint infix_loop (tokens output stack : list string)
  : result (list string) :=
  match tokens with
  | tok :: rest =>
      if is_number tok then infix_loop rest (output ++ [tok]) stack
      else
        match dict_get OPERATORS tok with
        | Some i1 =>
            let '(stack', output') := pop_operators i1 stack output in
            infix_loop rest output' (tok :: stack')
        | None =>
            if tok =? "(" then infix_loop rest output (tok :: stack)
            else if tok =? ")" then
              match pop_to_paren stack output with
              | ([], _) => Raise (ValueError "Mismatched parentheses")
              | (_ :: stack', output') => infix_loop rest output' stack'
              end
            else Raise (ValueError ("Unknown token in infix_to_postfix: " ++ tok))
        end
  | [] => drain stack output
  end.

Definition infix_to_postfix (tokens : list string) : result (list string) :=
  infix_loop tokens [] [].

(** ** Postfix evaluation *)

(** One line of the evaluation trace.  The source formats each line with an
    f-string; an entry keeps the fields of the format:
    [PUSH val] for [f"PUSH {val}"],
    [UNARY_MINUS a res] for [f"UNARY_MINUS {a} -> {res}"] and
    [BINARY a tok b res] for [f"{a} {tok} {b} -> {res}"]. *)
Inductive trace_entry : Type :=
| PUSH (val : float)
| UNARY_MINUS (a res : float)
| BINARY (a : float) (tok : string) (b res : float).

Section Evaluator.

(** [math.pow]: the value, or the exception it raises. *)
Variable math_pow : float -> float -> result float.

Definition apply_op (a b : float) (op : string) : result float :=
  if op =? "+" then Ok (a + b)%float
  else if op =? "-" then Ok (a - b)%float
  else if op =? "*" then Ok (a * b)%float
  else if op =? "/" then
    if (b =? 0)%float then Raise (ZeroDivisionError "Division by zero")
    else Ok (a / b)%float
  else if op =? "^" then math_pow a b
  else Raise (ValueError ("Unsupported operator: " ++ op)).

(** The [for tok in postfix_tokens] loop and the final check. *)
Fixpoint eval_loop (postfix_tokens : list string) (stack : list float)
  (trace : list trace_entry) : result (float * list trace_entry) :=
  match postfix_tokens with
  | tok :: rest =>
      match Py.float tok with (* [is_number(tok)], then [val = float(tok)] *)
      | Some val => eval_loop rest (val :: stack) (trace ++ [PUSH val])
      | None =>
          match dict_get OPERATORS tok with
          | Some _ =>
              if tok =? "u-" then
                match stack with
                | [] => Raise (ValueError "Insufficient operands for unary minus")
                | a :: stack' =>
                    let res := (- a)%float in
                    eval_loop rest (res :: stack') (trace ++ [UNARY_MINUS a res])
                end
              else
                match stack with
                | b :: a :: stack' =>
                    res <- apply_op a b tok ;;
                    eval_loop rest (res :: stack') (trace ++ [BINARY a tok b res])
                | _ => Raise (ValueError ("Insufficient operands for '" ++ tok ++ "'"))
                end
          | None =>
              Raise (ValueError ("Unknown token in evaluate_postfix: " ++ tok))
          end
      end
  | [] =>
      match stack with
      | [v] => Ok (v, trace)
      | _ => Raise (ValueError
                "The expression could not be evaluated to a single value (syntax error).")
      end
  end.

Definition evaluate_postfix (postfix_tokens : list string)
  : result (float * list trace_entry) :=
  eval_loop postfix_tokens [] [].

Definition evaluate_expression (expr : string)
  : result (float * list string * list string * list trace_entry) :=
  tokens <- tokenize expr ;;
  postfix <- infix_to_postfix tokens ;;
  '(value, trace) <- evaluate_postfix postfix ;;
  Ok (value, tokens, postfix, trace).

End Evaluator.

(** ** Auxiliary definitions for the statements *)

(** The exact rational value of a finite binary64 number. *)
Definition float_to_Q (x : float) : option Q :=
  match Prim2SF x with
  | S754_zero _ => Some (0 # 1)%Q
  | S754_finite s m e =>
      let n := if s then Zneg m else Zpos m in
      Some (if (0 <=? e)%Z then inject_Z (n * 2 ^ e)
            else (n # Z.to_pos (2 ^ (- e)))%Q)
  | _ => None
  end.

(** [abs(x - target) <= tol], computed exactly. *)
Definition approx (x : float) (target tol : Q) : bool :=
  match float_to_Q x with
  | Some q => Qle_bool (Qabs (q - target)%Q) tol
  | None => false
  end.

(** The integer a binary64 number stands for, when it is one. *)
Definition integral_value (y : float) : option Z :=
  match Prim2SF y with
  | S754_zero _ => Some 0%Z
  | S754_finite s m e =>
      let n := if s then Zneg m else Zpos m in
      if (0 <=? e)%Z then Some (n * 2 ^ e)%Z
      else if (Zpos m mod 2 ^ (- e) =? 0)%Z then Some (n / 2 ^ (- e))%Z
      else None
  | _ => None
  end.

Fixpoint pow_nat (x : float) (n : nat) : float :=
  match n with
  | O => one
  | S k => (x * pow_nat x k)%float
  end.

(** One instance of [math_pow], used to run the evaluator on concrete
    inputs: repeated multiplication for an exponent that is a natural number,
    which is the C library's result whenever every product is exact; a domain
    error elsewhere. *)
Definition pow_ref (x y : float) : result float :=
  match integral_value y with
  | Some n => if (0 <=? n)%Z then Ok (pow_nat x (Z.to_nat n))
              else Raise (ValueError "math domain error")
  | None => Raise (ValueError "math domain error")
  end.

(** The Number tokens of a postfix sequence: those [is_number] accepts. *)
Definition count_numbers (postfix : list string) : nat :=
  List.length (filter is_number postfix).

(** The operator tokens of a postfix sequence: the keys of [OPERATORS]. *)
Definition is_operator (tok : string) : bool :=
  match dict_get OPERATORS tok with
  | Some _ => true
  | None => false
  end.

(** How many tokens of a postfix sequence are operators. *)
Definition count_operators (postfix : list string) : nat :=
  List.length (filter is_operator postfix).

(** The message of the final check of [evaluate_postfix]. *)
Definition msg_single_value : string :=
  "The expression could not be evaluated to a single value (syntax error).".

(** Every character of [s] satisfies [p]. *)
Fixpoint all_chars (p : ascii -> bool) (s : string) : bool :=
  match s with
  | String c rest => p c && all_chars p rest
  | EmptyString => true
  end.

(** The specification's condition for a ['-'] to be a unary minus, on the
    tokens emitted so far: there is none, or the last one is an operator
    (a previous unary minus included) or a left parenthesis. *)
Definition unary_position (tokens : list string) : Prop :=
  tokens = []
  \/ exists init prev,
       tokens = (init ++ [prev])%list
       /\ (In prev ["+"; "-"; "*"; "/"; "^"; "u-"] \/ prev = "(").

(** Every ["u-"] of a token list stands in a unary position and no ["-"]
    does. *)
Definition minus_tokens_placed (toks : list string) : Prop :=
  forall before t after,
    toks = (before ++ t :: after)%list ->
    (t = "u-" -> unary_position before)
    /\ (t = "-" -> ~ unary_position before).

(** The tokens that come from the number branch of [tokenize]: they start
    with a digit or a dot. *)
Definition starts_with_num_char (s : string) : bool :=
  match s with
  | String c _ => is_num_char c
  | EmptyString => false
  end.

(** The maximal runs of digits and dots of a text, from left to right, as
    the specification speaks of them; [run] is the run being read, and
    [close_run] ends it. *)
Definition close_run (run : string) : list string :=
  match run with
  | EmptyString => []
  | _ => [run]
  end.

Fixpoint maximal_runs_from (s : string) (run : string) : list string :=
  match s with
  | String c rest =>
      if is_num_char c then maximal_runs_from rest (run ++ String c "")
      else (close_run run ++ maximal_runs_from rest "")%list
  | EmptyString => close_run run
  end.

Definition maximal_runs (text : string) : list string :=
  maximal_runs_from text "".

(** The specification's condition for popping the stack top [o2] when the
    operator [o1] is read: [o2] is an operator and either [o1] is
    left-associative with precedence at most that of [o2], or [o1] is
    right-associative with precedence below that of [o2]. *)
Definition spec_pops (o1 o2 : string) : Prop :=
  exists i1 i2,
    dict_get OPERATORS o1 = Some i1
    /\ dict_get OPERATORS o2 = Some i2
    /\ ((assoc i1 = "L" /\ (prec i1 <= prec i2)%Z)
        \/ (assoc i1 = "R" /\ (prec i1 < prec i2)%Z)).

(** ** The module's global state

    One object of [src/main.py] outlives a call of [evaluate_expression] and
    can be written by any code of the process: the module-level dictionary
    [OPERATORS], which [infix_to_postfix] and [evaluate_postfix] read.  To
    state what a call does with it, the functions that read it are embedded a
    second time with the module's globals passed in and out of every step:
    a computation takes the globals and returns its outcome and the globals
    it leaves, also when it raises.  Every [tok in OPERATORS] of the source
    is an [in_OPERATORS] here and every [OPERATORS[k]] a [get_OPERATORS],
    which raises [KeyError] when the key is missing; the source has no
    assignment to the dictionary or to its entries.  The lists [tokens],
    [output], [stack] and [trace] are created in the call that uses them, so
    they stay values. *)

Module Stateful.

(** The globals: the dictionary bound to [OPERATORS], each entry with its
    keys ['prec'] and ['assoc']. *)
Record globals : Type := { g_OPERATORS : list (string * op_info) }.

(** What a step raises: an exception of the engine, or the [KeyError] of a
    subscript [OPERATORS[key]]. *)
Inductive raised : Type :=
| Engine (e : exception)
| KeyError (key : string).

Inductive outcome (A : Type) : Type :=
| Returns (a : A)
| Raises (r : raised).

Arguments Returns {A} a.
Arguments Raises {A} r.

Definition of_result {A : Type} (r : result A) : outcome A :=
  match r with
  | Ok a => Returns a
  | Raise e => Raises (Engine e)
  end.

Definition M (A : Type) : Type := globals -> outcome A * globals.

Definition ret {A : Type} (a : A) : M A :=
  fun g => (Returns a, g).

Definition raise {A : Type} (e : exception) : M A :=
  fun g => (Raises (Engine e), g).

Definition bind {A B : Type} (m : M A) (k : A -> M B) : M B :=
  fun g =>
    match m g with
    | (Returns a, g') => k a g'
    | (Raises r, g') => (Raises r, g')
    end.

(** [k in OPERATORS]. *)
Definition in_OPERATORS (k : string) : M bool :=
  fun g =>
    match dict_get (g_OPERATORS g) k with
    | Some _ => (Returns true, g)
    | None => (Returns false, g)
    end.

(** [OPERATORS[k]]. *)
Definition get_OPERATORS (k : string) : M op_info :=
  fun g =>
    match dict_get (g_OPERATORS g) k with
    | Some i => (Returns i, g)
    | None => (Raises (KeyError k), g)
    end.

(** A call of a function that uses no global name of the module. *)
Definition call {A : Type} (r : result A) : M A :=
  fun g => (of_result r, g).

Declare Scope globals_scope.
Delimit Scope globals_scope with globals.
Notation "x <- m ;; k" := (bind m (fun x => k))
  (at level 61, m at next level, right associativity) : globals_scope.
Notation "' pat <- m ;; k" := (bind m (fun x => match x with pat => k end))
  (at level 61, pat pattern, m at next level, right associativity)
  : globals_scope.
Local Open Scope globals_scope.

(** [while stack and stack[-1] in OPERATORS: ...] for the operator [o1],
    with the reads of the loop body in the order of the source: [p1], [p2],
    then [OPERATORS[o1]['assoc']] once for each side of the [or] that is
    evaluated. *)
Fixpoint pop_operators (o1 : string) (stack output : list string)
  : M (list string * list string) :=
  match stack with
  | o2 :: stack' =>
      known <- in_OPERATORS o2 ;;
      if (known : bool) then
        i1 <- get_OPERATORS o1 ;;
        let p1 := prec i1 in
        i2 <- get_OPERATORS o2 ;;
        let p2 := prec i2 in
        l <- get_OPERATORS o1 ;;
        if (assoc l =? "L") && (p1 <=? p2)%Z
        then pop_operators o1 stack' (output ++ [o2])
        else
          r <- get_OPERATORS o1 ;;
          if (assoc r =? "R") && (p1 <? p2)%Z
          then pop_operators o1 stack' (output ++ [o2])
          else ret (stack, output)
      else ret (stack, output)
  | [] => ret (stack, output)
  end.

Fixpoint infix_loop (tokens output stack : list string) : M (list string) :=
  match tokens with
  | tok :: rest =>
      if is_number tok then infix_loop rest (output ++ [tok]) stack
      else
        known <- in_OPERATORS tok ;;
        if (known : bool) then
          '(stack', output') <- pop_operators tok stack output ;;
          infix_loop rest output' (tok :: stack')
        else if tok =? "(" then infix_loop rest output (tok :: stack)
        else if tok =? ")" then
          match pop_to_paren stack output with
          | ([], _) => raise (ValueError "Mismatched parentheses")
          | (_ :: stack', output') => infix_loop rest output' stack'
          end
        else raise (ValueError ("Unknown token in infix_to_postfix: " ++ tok))
  | [] => call (drain stack output)
  end.

Definition infix_to_postfix (tokens : list string) : M (list string) :=
  infix_loop tokens [] [].

Section Evaluator.

Variable math_pow : float -> float -> result float.

Fixpoint eval_loop (postfix_tokens : list string) (stack : list float)
  (trace : list trace_entry) : M (float * list trace_entry) :=
  match postfix_tokens with
  | tok :: rest =>
      match Py.float tok with
      | Some val => eval_loop rest (val :: stack) (trace ++ [PUSH val])
      | None =>
          known <- in_OPERATORS tok ;;
          if (known : bool) then
            if tok =? "u-" then
              match stack with
              | [] => raise (ValueError "Insufficient operands for unary minus")
              | a :: stack' =>
                  let res := (- a)%float in
                  eval_loop rest (res :: stack') (trace ++ [UNARY_MINUS a res])
              end
            else
              match stack with
              | b :: a :: stack' =>
                  res <- call (apply_op math_pow a b tok) ;;
                  eval_loop rest (res :: stack') (trace ++ [BINARY a tok b res])
              | _ => raise (ValueError ("Insufficient operands for '" ++ tok ++ "'"))
              end
          else raise (ValueError ("Unknown token in evaluate_postfix: " ++ tok))
      end
  | [] =>
      match stack with
      | [v] => ret (v, trace)
      | _ => raise (ValueError
                "The expression could not be evaluated to a single value (syntax error).")
      end
  end.

Definition evaluate_postfix (postfix_tokens : list string)
  : M (float * list trace_entry) :=
  eval_loop postfix_tokens [] [].

Definition evaluate_expression (expr : string)
  : M (float * list string * list string * list trace_entry) :=
  tokens <- call (tokenize expr) ;;
  postfix <- infix_to_postfix tokens ;;
  '(value, trace) <- evaluate_postfix postfix ;;
  ret (value, tokens, postfix, trace).

End Evaluator.

End Stateful.

(** The globals of the module as the source initialises them. *)
Definition initial_globals : Stateful.globals :=
  {| Stateful.g_OPERATORS := OPERATORS |}.

(** ** Definitions for the further properties *)

(** The characters [tokenize] accepts: whitespace, digits and dots, and the
    seven characters of ['+-*/^()']. *)
Definition allowed_char (ch : ascii) : bool :=
  Py.isspace ch || is_num_char ch || Py.contains "+-*/^()" ch.

(** The text a token was read from: ['u-'] was read from a ['-'], and every
    other token is its own text. *)
Definition token_text (tok : string) : string :=
  if tok =? "u-" then "-" else tok.

(** [''.join(l)]. *)
Definition join (l : list string) : string :=
  fold_right append "" l.

(** A text without its whitespace characters. *)
Fixpoint remove_spaces (s : string) : string :=
  match s with
  | String c rest =>
      if Py.isspace c then remove_spaces rest
      else String c (remove_spaces rest)
  | EmptyString => EmptyString
  end.

(** The three shapes of a token: the unary minus, one of the seven
    structural characters, or a run of digits and dots with at most one
    dot. *)
Definition token_shape (tok : string) : Prop :=
  tok = "u-"
  \/ In tok ["+"; "-"; "*"; "/"; "^"; "("; ")"]
  \/ (starts_with_num_char tok = true
      /\ all_chars is_num_char tok = true
      /\ Py.count "." tok <= 1).

(** The last character of a text is a digit or a dot. *)
Fixpoint ends_with_num_char (s : string) : bool :=
  match s with
  | String c EmptyString => is_num_char c
  | String _ rest => ends_with_num_char rest
  | EmptyString => false
  end.

(** A parenthesis token. *)
Definition is_paren (tok : string) : bool :=
  Py.in_tuple tok ["("; ")"].

(** The tokens [infix_to_postfix] has a branch for: numbers, operators and
    the two parentheses. *)
Definition known_token (tok : string) : bool :=
  is_number tok || is_operator tok || is_paren tok.

(** What the converter keeps on its stack: operators and left
    parentheses. *)
Definition stack_entry (tok : string) : Prop :=
  is_operator tok = true \/ tok = "(".

(** The number of parentheses left open after [tokens], starting from
    [depth] open ones; [None] when a [')'] closes nothing. *)
Fixpoint paren_depth (tokens : list string) (depth : nat) : option nat :=
  match tokens with
  | tok :: rest =>
      if tok =? "(" then paren_depth rest (S depth)
      else if tok =? ")" then
        match depth with
        | O => None
        | S d => paren_depth rest d
        end
      else paren_depth rest depth
  | [] => Some depth
  end.

Definition balanced (tokens : list string) : Prop :=
  paren_depth tokens 0 = Some 0.

Definition count_lparen (stack : list string) : nat :=
  count_occ string_dec stack "(".

(** The value a trace entry records as pushed on the stack. *)
Definition entry_result (e : trace_entry) : float :=
  match e with
  | PUSH val => val
  | UNARY_MINUS _ res => res
  | BINARY _ _ _ res => res
  end.

(** The values of the [PUSH] entries of a trace, in order. *)
Definition pushed_values (trace : list trace_entry) : list float :=
  flat_map (fun e => match e with PUSH val => [val] | _ => [] end) trace.

(** The values of the Number tokens of a postfix sequence, in order. *)
Definition number_values (postfix : list string) : list float :=
  flat_map (fun tok => match Py.float tok with
                       | Some val => [val]
                       | None => []
                       end) postfix.

(** The binary operators: the keys of [OPERATORS] other than ['u-']. *)
Definition is_binary (tok : string) : bool :=
  is_operator tok && negb (tok =? "u-").

Definition count_binary (postfix : list string) : nat :=
  List.length (filter is_binary postfix).

(** A trace entry records a computation that [math_pow] and [apply_op]
    really give. *)
Definition entry_sound (math_pow : float -> float -> result float)
  (e : trace_entry) : Prop :=
  match e with
  | PUSH _ => True
  | UNARY_MINUS a res => res = (- a)%float
  | BINARY a tok b res =>
      is_binary tok = true /\ apply_op math_pow a b tok = Ok res
  end.

(** The errors of the evaluation loop itself. *)
Inductive eval_error (math_pow : float -> float -> result float)
  : exception -> Prop :=
| eval_error_unary :
    eval_error math_pow (ValueError "Insufficient operands for unary minus")
| eval_error_binary tok :
    is_binary tok = true ->
    eval_error math_pow
      (ValueError ("Insufficient operands for '" ++ tok ++ "'"))
| eval_error_single :
    eval_error math_pow (ValueError msg_single_value)
| eval_error_division :
    eval_error math_pow (ZeroDivisionError "Division by zero")
| eval_error_pow a b e :
    math_pow a b = Raise e -> eval_error math_pow e.

(** The errors [evaluate_expression] can end with, by the stage that raises
    them: a literal with two dots or more, a character outside the alphabet,
    mismatched parentheses, a run of digits and dots that is not a number,
    and the errors of the evaluation loop. *)
Inductive pipeline_error (math_pow : float -> float -> result float)
  (text : string) : exception -> Prop :=
| error_literal run :
    all_chars is_num_char run = true ->
    2 <= Py.count "." run ->
    pipeline_error math_pow text
      (ValueError ("Invalid numeric literal: " ++ run))
| error_character ch :
    Py.contains text ch = true ->
    allowed_char ch = false ->
    pipeline_error math_pow text
      (ValueError ("Unsupported character: '" ++ String ch "'"))
| error_parentheses :
    pipeline_error math_pow text (ValueError "Mismatched parentheses")
| error_not_a_number tok :
    starts_with_num_char tok = true ->
    all_chars is_num_char tok = true ->
    is_number tok = false ->
    pipeline_error math_pow text
      (ValueError ("Unknown token in infix_to_postfix: " ++ tok))
| error_evaluation e :
    eval_error math_pow e -> pipeline_error math_pow text e.

(** The characters of a decimal literal [float] reads: an ASCII digit or a
    dot. *)
Definition digit_or_dot (c : ascii) : bool :=
  Py.is_ascii_digit c || (c =? ".")%char.

(** Some character of [s] satisfies [p]. *)
Fixpoint any_char (p : ascii -> bool) (s : string) : bool :=
  match s with
  | String c rest => p c || any_char p rest
  | EmptyString => false
  end.

(** A plain decimal literal: ASCII digits and dots only, with a digit. *)
Definition plain_literal (tok : string) : bool :=
  all_chars digit_or_dot tok && any_char Py.is_ascii_digit tok.

(** A text that starts with an ASCII digit. *)
Definition starts_with_ascii_digit (s : string) : bool :=
  match s with
  | String c _ => Py.is_ascii_digit c
  | EmptyString => false
  end.

(** A conversion that gave a value. *)
Definition accepted (o : option float) : bool :=
  match o with
  | Some _ => true
  | None => false
  end.

(** The superscript digits two, three and one (U+00B2, U+00B3, U+00B9):
    [str.isdigit] is true of them and [float] refuses them. *)
Definition superscript_digit (c : ascii) : bool :=
  let n := Py.code c in
  ((n =? 178) || (n =? 179) || (n =? 185))%N.

(** The one-character strings of the three superscript digits. *)
Definition superscript_two : string := String (ascii_of_N 178) "".
Definition superscript_three : string := String (ascii_of_N 179) "".
Definition superscript_one : string := String (ascii_of_N 185) "".

(** Expression trees, to state what the converter and the evaluator compute:
    a number, a negation, or a binary operation. *)
Inductive expr : Type :=
| Num (tok : string)
| Neg (e : expr)
| Bin (op : string) (l r : expr).

(** The leaves are Number tokens and the nodes carry binary operators. *)
Fixpoint well_formed (e : expr) : Prop :=
  match e with
  | Num tok => is_number tok = true
  | Neg e => well_formed e
  | Bin op l r => is_binary op = true /\ well_formed l /\ well_formed r
  end.

(** The infix tokens of a tree, with parentheses around every operation. *)
Fixpoint infix_tokens (e : expr) : list string :=
  match e with
  | Num tok => [tok]
  | Neg e => ["("; "u-"] ++ infix_tokens e ++ [")"]
  | Bin op l r => ["("] ++ infix_tokens l ++ [op] ++ infix_tokens r ++ [")"]
  end.

(** The postfix tokens of a tree: operands first, then the operator. *)
Fixpoint postfix_tokens (e : expr) : list string :=
  match e with
  | Num tok => [tok]
  | Neg e => postfix_tokens e ++ ["u-"]
  | Bin op l r => postfix_tokens l ++ postfix_tokens r ++ [op]
  end.

(** The text of a tree, with parentheses around every operation and ['-']
    for the negation. *)
Fixpoint infix_text (e : expr) : string :=
  match e with
  | Num tok => tok
  | Neg e => "(-" ++ infix_text e ++ ")"
  | Bin op l r => "(" ++ infix_text l ++ op ++ infix_text r ++ ")"
  end.

(** The leaves are plain decimal literals with at most one dot. *)
Fixpoint literal_leaves (e : expr) : Prop :=
  match e with
  | Num tok => plain_literal tok = true /\ Py.count "." tok <= 1
  | Neg e => literal_leaves e
  | Bin _ l r => literal_leaves l /\ literal_leaves r
  end.

Section TreeValue.

Variable math_pow : float -> float -> result float.

(** The value of a tree: operands from left to right, then the operation,
    with the arithmetic of [apply_op]. *)
Fixpoint tree_value (e : expr) : result float :=
  match e with
  | Num tok =>
      match Py.float tok with
      | Some val => Ok val
      | None => Raise (ValueError ("Unknown token in evaluate_postfix: " ++ tok))
      end
  | Neg e => a <- tree_value e ;; Ok (- a)%float
  | Bin op l r =>
      a <- tree_value l ;;
      b <- tree_value r ;;
      apply_op math_pow a b op
  end.

End TreeValue.

(** An operator of associativity [a] and precedence [p] in [OPERATORS]. *)
Definition operator_class (a : string) (p : Z) (op : string) : Prop :=
  exists i, dict_get OPERATORS op = Some i /\ assoc i = a /\ prec i = p.

(** The tokens [op1 n1 op2 n2 ...] that follow the first number of a chain
    without parentheses. *)
Definition chain_tokens (pairs : list (string * string)) : list string :=
  flat_map (fun '(op, n) => [op; n]) pairs.

(** The tree of a chain grouped from the left: [((t op1 n1) op2 n2) ...]. *)
Definition left_tree (t : expr) (pairs : list (string * string)) : expr :=
  fold_left (fun t '(op, n) => Bin op t (Num n)) pairs t.

(** The tree of a chain grouped from the right:
    [first op1 (n1 op2 (n2 ...))]. *)
Fixpoint right_tree (first : string) (pairs : list (string * string)) : expr :=
  match pairs with
  | (op, n) :: pairs' => Bin op (Num first) (right_tree n pairs')
  | [] => Num first
  end.

(** ** The sample button of the window

    [ExpressionEvaluatorApp.insert_sample] reads and writes the text of the
    entry field only ([self.input_var]), so it is a function from that text
    to the new text. *)

(** [s.strip()]: without the whitespace at both ends. *)
Fixpoint str_lstrip (s : string) : string :=
  match s with
  | String c rest => if Py.isspace c then str_lstrip rest else s
  | EmptyString => s
  end.

Fixpoint str_rstrip (s : string) : string :=
  match s with
  | String c rest =>
      match str_rstrip rest with
      | EmptyString => if Py.isspace c then EmptyString else String c EmptyString
      | rest' => String c rest'
      end
  | EmptyString => s
  end.

Definition str_strip (s : string) : string :=
  str_rstrip (str_lstrip s).

(** [l.index(x)]: the first position of [x], [None] for the [ValueError]. *)
Fixpoint list_index (l : list string) (x : string) : option nat :=
  match l with
  | y :: l' => if y =? x then Some 0 else option_map S (list_index l' x)
  | [] => None
  end.

(** [self.samples]. *)
Definition samples : list string :=
  [ "3 + 4 * 2 / (1 - 5) ^ 2 ^ 3";
    "-3 + 4 * (2 - 1)";
    "2^3^2";
    " ( 3.5 + 2.1 ) * 4 - -2 ";
    "10 / (5-5)";
    "3 + + 4" ].

(** [insert_sample], from the text of the entry field to its new text. *)
Definition insert_sample (input_var : string) : string :=
  let cur := str_strip input_var in
  let idx :=
    match list_index samples cur with
    | Some idx => (idx + 1) mod List.length samples
    | None => 0
    end in
  nth idx samples "".

(** [n] presses of the button. *)
Fixpoint press (n : nat) (input_var : string) : string :=
  match n with
  | O => input_var
  | S k => insert_sample (press k input_var)
  end.

(** ** Properties *)

(** *** C1: the value of ["(3.5+2.1)*4--2"] *)

(** C1, as the specification states it, fails: whatever [math.pow] is,
    [evaluate_expression("(3.5+2.1)*4--2")] does not return a value within
    [1e-9] of [26.4]. *)
Lemma parenthesis_round_trip_is_not_26_4 :
  ~ (exists math_pow v tokens postfix trace,
        evaluate_expression math_pow "(3.5+2.1)*4--2"
        = Ok (v, tokens, postfix, trace)
        /\ approx v (264 # 10)%Q (1 # 1000000000)%Q = true).
Proof.
  intros (math_pow & v & tokens & postfix & trace & Hrun & Hv).
  vm_compute in Hrun.
  injection Hrun as <- _ _ _.
  vm_compute in Hv.
  discriminate Hv.
Qed.

(** C1 (amended): [evaluate_expression("(3.5+2.1)*4--2")] succeeds; its
    value is the binary64 number [float("24.4")], which is within [1e-9] of
    [24.4] ([5.6 * 4 = 22.4] and [22.4 - (-2) = 24.4]). *)
Theorem parenthesis_round_trip_value :
  forall math_pow, exists v trace,
    evaluate_expression math_pow "(3.5+2.1)*4--2"
    = Ok (v, ["("; "3.5"; "+"; "2.1"; ")"; "*"; "4"; "-"; "u-"; "2"],
          ["3.5"; "2.1"; "+"; "4"; "*"; "2"; "u-"; "-"], trace)
    /\ Py.float "24.4" = Some v
    /\ approx v (244 # 10)%Q (1 # 1000000000)%Q = true.
Proof.
  intros math_pow. eexists. eexists.
  split; [vm_compute; reflexivity|].
  split; vm_compute; reflexivity.
Qed.

(** *** Unfolding equations and basic facts *)

Lemma tokenize_loop_nil (tokens : list string) :
  tokenize_loop "" tokens = Ok tokens.
Proof. now rewrite tokenize_loop_equation_1. Qed.

Lemma tokenize_loop_space (ch : ascii) (rest : string) (tokens : list string) :
  Py.isspace ch = true ->
  tokenize_loop (String ch rest) tokens = tokenize_loop rest tokens.
Proof. intros H. rewrite tokenize_loop_equation_2, H. reflexivity. Qed.

Lemma is_operator_key (tok : string) (i : op_info) :
  dict_get OPERATORS tok = Some i ->
  In tok ["+"; "-"; "*"; "/"; "^"; "u-"].
Proof.
  unfold OPERATORS; cbn [dict_get].
  repeat match goal with
         | |- context [String.eqb ?k tok] =>
             destruct (String.eqb_spec k tok); [subst; simpl; tauto|]
         end.
  discriminate.
Qed.

Lemma operator_is_not_number (tok : string) (i : op_info) :
  dict_get OPERATORS tok = Some i -> Py.float tok = None.
Proof.
  intros H. apply is_operator_key in H. simpl in H.
  repeat (destruct H as [<- | H]; [vm_compute; reflexivity|]).
  contradiction.
Qed.

Lemma append_snoc (a : string) (c : ascii) (b : string) :
  (a ++ String c "") ++ b = a ++ String c b.
Proof. induction a as [|d a IH]; simpl; congruence. Qed.

Lemma append_empty (a : string) : a ++ "" = a.
Proof. induction a as [|d a IH]; simpl; congruence. Qed.

Lemma num_char_not_space (ch : ascii) :
  is_num_char ch = true -> Py.isspace ch = false.
Proof. destruct ch as [[] [] [] [] [] [] [] []]; vm_compute; congruence. Qed.

(** What the inner loop returns: the characters it appends are digits and
    dots, they are the start of the text it scans, and the text left does
    not start with a digit or a dot. *)
Lemma scan_number_spec (s : string) :
  forall acc, exists tail,
    fst (scan_number s acc) = acc ++ tail
    /\ s = tail ++ snd (scan_number s acc)
    /\ all_chars is_num_char tail = true
    /\ starts_with_num_char (snd (scan_number s acc)) = false.
Proof.
  induction s as [|c s IH]; intros acc; simpl.
  - exists "". now rewrite append_empty.
  - destruct (is_num_char c) eqn:Hc.
    + destruct (IH (acc ++ String c "")) as (tail & H1 & H2 & H3 & H4).
      exists (String c tail). rewrite H1, append_snoc. simpl.
      rewrite Hc, H3. repeat split; [congruence | exact H4].
    + exists "". simpl. now rewrite append_empty, Hc.
Qed.

(** *** C2: the length of the trace *)

Lemma eval_loop_trace_length math_pow (postfix : list string) :
  forall stack trace v trace',
    eval_loop math_pow postfix stack trace = Ok (v, trace') ->
    List.length trace' = List.length trace + List.length postfix
    /\ List.length postfix = count_numbers postfix + count_operators postfix.
Proof.
  unfold count_numbers, count_operators.
  induction postfix as [|tok rest IH]; intros stack trace v trace' H;
    cbn [eval_loop] in H.
  - destruct stack as [|x [|y stack]]; try discriminate.
    injection H as _ <-. simpl. lia.
  - simpl filter. unfold is_number at 1, is_operator at 1.
    destruct (Py.float tok) as [val|] eqn:Hnum.
    + assert (Hop : dict_get OPERATORS tok = None).
      { destruct (dict_get OPERATORS tok) eqn:E; [|reflexivity].
        apply operator_is_not_number in E. congruence. }
      rewrite Hop. apply IH in H. rewrite length_app in H. simpl in *. lia.
    + destruct (dict_get OPERATORS tok) as [i|] eqn:Hop; [|discriminate].
      destruct (tok =? "u-").
      * destruct stack as [|a stack]; [discriminate|].
        apply IH in H. rewrite length_app in H. simpl in *. lia.
      * destruct stack as [|b [|a stack]]; try discriminate.
        destruct (apply_op math_pow a b tok) as [res|e]; [|discriminate].
        cbn [bind] in H. apply IH in H. rewrite length_app in H. simpl in *. lia.
Qed.

(** C2, as the specification states it, fails: ["3 4 +"] evaluates, its
    trace has three entries, and it holds two Number tokens. *)
Lemma trace_length_is_not_number_count :
  ~ (forall math_pow postfix v trace,
        evaluate_postfix math_pow postfix = Ok (v, trace) ->
        List.length trace = count_numbers postfix).
Proof.
  intros H.
  pose proof (H pow_ref ["3"; "4"; "+"]) as H1.
  vm_compute in H1.
  specialize (H1 _ _ eq_refl). discriminate H1.
Qed.

(** C2 (amended): for every postfix sequence that [evaluate_postfix]
    evaluates successfully, the number of trace entries equals the number of
    tokens of the sequence, that is the number of its Number tokens plus the
    number of its operator tokens. *)
Theorem trace_length_is_token_count :
  forall math_pow postfix v trace,
    evaluate_postfix math_pow postfix = Ok (v, trace) ->
    List.length trace = List.length postfix
    /\ List.length trace = count_numbers postfix + count_operators postfix.
Proof.
  intros math_pow postfix v trace H.
  apply eval_loop_trace_length in H. simpl in H. lia.
Qed.

Lemma trace_length_is_token_count_witness :
  evaluate_postfix pow_ref ["3"; "4"; "+"; "2"; "u-"; "*"]
  = Ok ((-14)%float,
        [PUSH 3; PUSH 4; BINARY 3 "+" 4 7; PUSH 2; UNARY_MINUS 2 (-2);
         BINARY 7 "*" (-2) (-14)])
  /\ 6 = List.length ["3"; "4"; "+"; "2"; "u-"; "*"]
  /\ 6 = count_numbers ["3"; "4"; "+"; "2"; "u-"; "*"]
         + count_operators ["3"; "4"; "+"; "2"; "u-"; "*"].
Proof.
  split; [vm_compute; reflexivity|].
  apply (trace_length_is_token_count pow_ref ["3"; "4"; "+"; "2"; "u-"; "*"]
           (-14)%float
           [PUSH 3; PUSH 4; BINARY 3 "+" 4 7; PUSH 2; UNARY_MINUS 2 (-2);
            BINARY 7 "*" (-2) (-14)]).
  vm_compute; reflexivity.
Defined.

(** *** C3: precedence and associativity *)

Lemma pops_spec (o1 o2 : string) (i1 : op_info) :
  dict_get OPERATORS o1 = Some i1 ->
  spec_pops o1 o2
  <-> exists i2, dict_get OPERATORS o2 = Some i2 /\ pops i1 i2 = true.
Proof.
  intros H1. unfold spec_pops, pops. split.
  - intros (j1 & i2 & Hj1 & H2 & Hcond).
    assert (j1 = i1) by congruence. subst j1.
    exists i2. split; [exact H2|].
    destruct Hcond as [[Ha Hp] | [Ha Hp]]; rewrite Ha; simpl.
    + apply Z.leb_le in Hp. now rewrite Hp.
    + apply Z.ltb_lt in Hp. rewrite Hp. reflexivity || apply orb_true_r.
  - intros (i2 & H2 & Hcond). exists i1, i2. split; [exact H1|].
    split; [exact H2|].
    apply orb_prop in Hcond as [Hc | Hc];
      apply andb_prop in Hc as [Ha Hp]; apply String.eqb_eq in Ha.
    + left. split; [exact Ha | now apply Z.leb_le].
    + right. split; [exact Ha | now apply Z.ltb_lt].
Qed.

Lemma pop_operators_spec (o1 : string) (i1 : op_info) (stack : list string) :
  dict_get OPERATORS o1 = Some i1 ->
  forall output, exists popped remaining,
    stack = (popped ++ remaining)%list
    /\ Forall (spec_pops o1) popped
    /\ match remaining with
       | [] => True
       | top :: _ => ~ spec_pops o1 top
       end
    /\ pop_operators i1 stack output = (remaining, (output ++ popped)%list).
Proof.
  intros H1. induction stack as [|o2 stack IH]; intros output.
  - exists [], []. simpl. now rewrite app_nil_r.
  - cbn [pop_operators].
    destruct (dict_get OPERATORS o2) as [i2|] eqn:H2.
    + destruct (pops i1 i2) eqn:Hp.
      * destruct (IH (output ++ [o2])%list) as (popped & remaining & -> & Hall & Htop & ->).
        exists (o2 :: popped), remaining.
        split; [reflexivity|]. split; [|split; [exact Htop|]].
        -- constructor; [|exact Hall].
           apply (pops_spec o1 o2 i1 H1). eauto.
        -- now rewrite <- app_assoc.
      * exists [], (o2 :: stack). rewrite app_nil_r.
        split; [reflexivity|]. split; [constructor|]. split; [|reflexivity].
        intros Hs. apply (pops_spec o1 o2 i1 H1) in Hs as (j2 & Hj2 & Hpj).
        congruence.
    + exists [], (o2 :: stack). rewrite app_nil_r.
      split; [reflexivity|]. split; [constructor|]. split; [|reflexivity].
      intros (j1 & j2 & _ & Hj2 & _). congruence.
Qed.

Lemma infix_loop_operator (o1 : string) (i1 : op_info)
  (rest output stack : list string) :
  dict_get OPERATORS o1 = Some i1 ->
  infix_loop (o1 :: rest) output stack
  = let '(stack', output') := pop_operators i1 stack output in
    infix_loop rest output' (o1 :: stack').
Proof.
  intros H1. cbn [infix_loop]. unfold is_number.
  now rewrite (operator_is_not_number o1 i1 H1), H1.
Qed.

(** C3: when [infix_to_postfix] reads an operator [o1], it moves operators
    [o2] from the stack to the output exactly while the specification's
    condition holds of the stack top, and then pushes [o1].  Chains of equal
    precedence group by associativity: ["8-3-2"] becomes [8 3 - 2 -] and
    evaluates to [3], and ["2^3^2"] becomes [2 3 2 ^ ^], which evaluates to
    [512] with a [math.pow] that is exact on [3^2] and [2^9]. *)
Theorem operator_precedence_and_associativity :
  forall math_pow,
    (forall o1 i1 rest output stack,
        dict_get OPERATORS o1 = Some i1 ->
        exists popped remaining,
          stack = (popped ++ remaining)%list
          /\ Forall (spec_pops o1) popped
          /\ match remaining with
             | [] => True
             | top :: _ => ~ spec_pops o1 top
             end
          /\ infix_loop (o1 :: rest) output stack
             = infix_loop rest (output ++ popped) (o1 :: remaining))
    /\ (exists trace,
           evaluate_expression math_pow "8-3-2"
           = Ok (3%float, ["8"; "-"; "3"; "-"; "2"],
                 ["8"; "3"; "-"; "2"; "-"], trace))
    /\ (math_pow 3%float 2%float = Ok 9%float ->
        math_pow 2%float 9%float = Ok 512%float ->
        exists trace,
          evaluate_expression math_pow "2^3^2"
          = Ok (512%float, ["2"; "^"; "3"; "^"; "2"],
                ["2"; "3"; "2"; "^"; "^"], trace)).
Proof.
  intros math_pow. split; [|split].
  - intros o1 i1 rest output stack H1.
    destruct (pop_operators_spec o1 i1 stack H1 output)
      as (popped & remaining & Hsplit & Hall & Htop & Hpop).
    exists popped, remaining.
    split; [exact Hsplit|]. split; [exact Hall|]. split; [exact Htop|].
    now rewrite (infix_loop_operator o1 i1 rest output stack H1), Hpop.
  - eexists. vm_compute. reflexivity.
  - intros H32 H29. eexists.
    vm_compute. rewrite H32. vm_compute. rewrite H29. reflexivity.
Qed.

Lemma operator_precedence_and_associativity_witness :
  (exists popped remaining,
      ["*"; "+"; "("; "-"] = (popped ++ remaining)%list
      /\ Forall (spec_pops "-") popped
      /\ match remaining with
         | [] => True
         | top :: _ => ~ spec_pops "-" top
         end
      /\ infix_loop ["-"; "5"] ["1"; "2"; "3"] ["*"; "+"; "("; "-"]
         = infix_loop ["5"] (["1"; "2"; "3"] ++ popped) ("-" :: remaining))
  /\ exists trace,
       evaluate_expression pow_ref "2^3^2"
       = Ok (512%float, ["2"; "^"; "3"; "^"; "2"],
             ["2"; "3"; "2"; "^"; "^"], trace).
Proof.
  split.
  - apply (proj1 (operator_precedence_and_associativity pow_ref)
             "-" {| prec := 2; assoc := "L" |}).
    reflexivity.
  - apply (proj2 (proj2 (operator_precedence_and_associativity pow_ref)));
      vm_compute; reflexivity.
Defined.

(** *** C4: unary minus *)

Lemma last_or_None_snoc (init : list string) (x : string) :
  Py.last_or_None (init ++ [x]) = Some x.
Proof. unfold Py.last_or_None. now rewrite rev_unit. Qed.

Lemma in_tuple_In (x : string) (l : list string) :
  Py.in_tuple x l = true <-> In x l.
Proof.
  unfold Py.in_tuple. rewrite existsb_exists. split.
  - intros (y & Hin & Heq). apply String.eqb_eq in Heq. now subst.
  - intros Hin. exists x. split; [exact Hin | apply String.eqb_refl].
Qed.

Lemma unary_context_spec (tokens : list string) :
  unary_context tokens = true <-> unary_position tokens.
Proof.
  unfold unary_context, unary_position.
  destruct tokens as [|t tokens] using rev_ind.
  - split; [now left | reflexivity].
  - rewrite last_or_None_snoc, in_tuple_In. split.
    + intros Hin. right. exists tokens, t. split; [reflexivity|].
      simpl in Hin. simpl. intuition congruence.
    + intros [Hnil | (init & prev & Heq & Hprev)].
      * now destruct tokens.
      * apply app_inj_tail in Heq as [_ ->]. simpl in Hprev. simpl.
        intuition congruence.
Qed.

Lemma tokenize_loop_minus (rest : string) (tokens : list string) :
  tokenize_loop (String "-" rest) tokens
  = tokenize_loop rest
      (tokens ++ [if unary_context tokens then "u-" else "-"]).
Proof.
  rewrite tokenize_loop_equation_2.
  change (Py.isspace "-") with false.
  change (is_num_char "-") with false.
  change (Py.contains "+-*/^()" "-") with true.
  change ("-" =? "-")%char with true.
  cbn [andb]. now destruct (unary_context tokens).
Qed.

Lemma minus_tokens_placed_snoc (tokens : list string) (t : string) :
  minus_tokens_placed tokens ->
  (t = "u-" -> unary_position tokens) ->
  (t = "-" -> ~ unary_position tokens) ->
  minus_tokens_placed (tokens ++ [t]).
Proof.
  intros Hinv Hu Hb before t' after Heq.
  destruct after as [|x after] using rev_ind.
  - apply app_inj_tail in Heq as [<- <-]. now split.
  - clear IHafter.
    change (before ++ t' :: after ++ [x])%list
      with (before ++ (t' :: after) ++ [x])%list in Heq.
    rewrite app_assoc in Heq.
    apply app_inj_tail in Heq as [Heq _].
    exact (Hinv before t' after Heq).
Qed.

Lemma tokenize_loop_minus_tokens (s : string) (tokens : list string) :
  forall toks,
    minus_tokens_placed tokens ->
    tokenize_loop s tokens = Ok toks ->
    minus_tokens_placed toks.
Proof.
  funelim (tokenize_loop s tokens); intros toks Hinv Hrun.
  - now injection Hrun as <-.
  - clear Heqcall.
    destruct (Py.isspace ch); [now apply (H toks)|].
    destruct (is_num_char ch) eqn:Hnum.
    + destruct (1 <? _)%nat; [discriminate|].
      apply (H0 toks); [|exact Hrun].
      destruct (scan_number_spec rest (String ch "")) as (suffix & Hpre & _).
      rewrite Hpre. simpl.
      apply minus_tokens_placed_snoc; [exact Hinv | |];
        intros Heq; injection Heq as -> _; discriminate Hnum.
    + destruct (Py.contains "+-*/^()" ch); [|discriminate].
      destruct (Ascii.eqb_spec ch "-") as [->|Hne]; cbn [andb] in Hrun.
      * destruct (unary_context tokens) eqn:Hctx.
        -- apply (H1 toks); [|exact Hrun].
           apply minus_tokens_placed_snoc; [exact Hinv | |].
           ++ intros _. now apply unary_context_spec.
           ++ discriminate.
        -- apply (H2 toks); [|exact Hrun].
           apply minus_tokens_placed_snoc; [exact Hinv | |].
           ++ discriminate.
           ++ intros _ Hpos. apply unary_context_spec in Hpos. congruence.
      * apply (H2 toks); [|exact Hrun].
        apply minus_tokens_placed_snoc; [exact Hinv | |].
        -- discriminate.
        -- intros Heq. injection Heq as ->. now elim Hne.
Qed.

(** C4: when [tokenize] reads a ['-'] it emits ["u-"] if no token was
    emitted yet or the last emitted token is one of [+ - * / ^ u-] or ['('],
    and ["-"] otherwise; hence in every token list it returns each ["u-"]
    stands in such a position and no ["-"] does.  The three examples of the
    specification hold. *)
Theorem unary_minus_disambiguation :
  (forall rest tokens,
      unary_position tokens ->
      tokenize_loop (String "-" rest) tokens
      = tokenize_loop rest (tokens ++ ["u-"]))
  /\ (forall rest tokens,
         ~ unary_position tokens ->
         tokenize_loop (String "-" rest) tokens
         = tokenize_loop rest (tokens ++ ["-"]))
  /\ (forall text toks,
         tokenize text = Ok toks ->
         forall before t after,
           toks = (before ++ t :: after)%list ->
           (t = "u-" -> unary_position before)
           /\ (t = "-" -> ~ unary_position before))
  /\ tokenize "-3+4" = Ok ["u-"; "3"; "+"; "4"]
  /\ tokenize "3--4" = Ok ["3"; "-"; "u-"; "4"]
  /\ tokenize "(-3)" = Ok ["("; "u-"; "3"; ")"].
Proof.
  split; [|split; [|split; [|split; [|split]]]].
  - intros rest tokens Hpos. apply unary_context_spec in Hpos.
    now rewrite tokenize_loop_minus, Hpos.
  - intros rest tokens Hpos. rewrite tokenize_loop_minus.
    destruct (unary_context tokens) eqn:Hctx; [|reflexivity].
    apply unary_context_spec in Hctx. contradiction.
  - intros text toks Hrun.
    apply (tokenize_loop_minus_tokens text [] toks); [|exact Hrun].
    intros before t after Heq. now destruct before.
  - vm_compute. reflexivity.
  - vm_compute. reflexivity.
  - vm_compute. reflexivity.
Qed.

Lemma unary_minus_disambiguation_witness :
  tokenize_loop "-2" ["4"; "*"] = tokenize_loop "2" ["4"; "*"; "u-"]
  /\ tokenize_loop "-2" ["4"] = tokenize_loop "2" ["4"; "-"]
  /\ (unary_position ["("; "3"; "+"]
      /\ ~ unary_position ["("; "3"; "+"; "u-"; "4"]).
Proof.
  split; [|split].
  - apply (proj1 unary_minus_disambiguation "2" ["4"; "*"]).
    right. exists ["4"], "*". simpl. tauto.
  - apply (proj1 (proj2 unary_minus_disambiguation) "2" ["4"]).
    intros Hpos. apply unary_context_spec in Hpos. discriminate Hpos.
  - split.
    + apply (proj1 (proj2 (proj2 unary_minus_disambiguation))
               "(3+-4-5" ["("; "3"; "+"; "u-"; "4"; "-"; "5"]
               ltac:(vm_compute; reflexivity)
               ["("; "3"; "+"] "u-" ["4"; "-"; "5"] eq_refl).
      reflexivity.
    + apply (proj1 (proj2 (proj2 unary_minus_disambiguation))
               "(3+-4-5" ["("; "3"; "+"; "u-"; "4"; "-"; "5"]
               ltac:(vm_compute; reflexivity)
               ["("; "3"; "+"; "u-"; "4"] "-" ["5"] eq_refl).
      reflexivity.
Defined.

(** *** C5: division by zero *)

(** C5: [apply_op] on ['/'] raises [ZeroDivisionError("Division by zero")]
    exactly when the right operand equals zero, and returns the quotient
    otherwise; the error raised is of the kind the specification calls
    ArithmeticError, which is never the kind it calls SyntaxError;
    [evaluate_expression("10/(5-5)")] fails with it. *)
Theorem division_by_zero :
  forall math_pow,
    (forall a b,
        apply_op math_pow a b "/" = Raise (ZeroDivisionError "Division by zero")
        <-> (b =? 0)%float = true)
    /\ (forall a b,
           (b =? 0)%float = false <->
           apply_op math_pow a b "/" = Ok (a / b)%float)
    /\ (forall a b e,
           apply_op math_pow a b "/" = Raise e ->
           is_ArithmeticError e = true /\ is_SyntaxError e = false)
    /\ (forall e, is_ArithmeticError e = true -> is_SyntaxError e = false)
    /\ evaluate_expression math_pow "10/(5-5)"
       = Raise (ZeroDivisionError "Division by zero").
Proof.
  intros math_pow.
  assert (Hdiv : forall a b,
             apply_op math_pow a b "/"
             = if (b =? 0)%float
               then Raise (ZeroDivisionError "Division by zero")
               else Ok (a / b)%float) by reflexivity.
  split; [|split; [|split; [|split]]].
  - intros a b. rewrite Hdiv.
    destruct (b =? 0)%float; split; congruence.
  - intros a b. rewrite Hdiv.
    destruct (b =? 0)%float; split; congruence.
  - intros a b e H. rewrite Hdiv in H.
    destruct (b =? 0)%float; [|discriminate].
    injection H as <-. split; reflexivity.
  - intros [msg|msg|msg]; simpl; congruence.
  - vm_compute. reflexivity.
Qed.

Lemma division_by_zero_witness :
  apply_op pow_ref 1%float neg_zero "/"
  = Raise (ZeroDivisionError "Division by zero")
  /\ apply_op pow_ref 1%float 4%float "/" = Ok (1 / 4)%float
  /\ (is_ArithmeticError (ZeroDivisionError "Division by zero") = true
      /\ is_SyntaxError (ZeroDivisionError "Division by zero") = false).
Proof.
  split; [|split].
  - apply (proj1 (division_by_zero pow_ref) 1%float neg_zero). reflexivity.
  - apply (proj1 (proj2 (division_by_zero pow_ref)) 1%float 4%float).
    reflexivity.
  - apply (proj1 (proj2 (proj2 (division_by_zero pow_ref))) 1%float 0%float).
    reflexivity.
Defined.

(** *** C6: mismatched parentheses *)

Lemma pop_to_paren_none (stack : list string) :
  forall output,
    ~ In "(" stack -> pop_to_paren stack output = ([], (output ++ stack)%list).
Proof.
  induction stack as [|top stack IH]; intros output Hno; simpl.
  - now rewrite app_nil_r.
  - destruct (String.eqb_spec top "(") as [->|Hne].
    + exfalso. apply Hno. now left.
    + rewrite IH by (intros Hin; apply Hno; now right).
      now rewrite <- app_assoc.
Qed.

Lemma pop_to_paren_found (above below : list string) :
  forall output,
    ~ In "(" above ->
    pop_to_paren (above ++ "(" :: below) output
    = ("(" :: below, (output ++ above)%list).
Proof.
  induction above as [|top above IH]; intros output Hno; simpl.
  - now rewrite app_nil_r.
  - destruct (String.eqb_spec top "(") as [->|Hne].
    + exfalso. apply Hno. now left.
    + rewrite IH by (intros Hin; apply Hno; now right).
      now rewrite <- app_assoc.
Qed.

Lemma drain_paren (stack : list string) :
  forall output,
    In "(" stack \/ In ")" stack ->
    drain stack output = Raise (ValueError "Mismatched parentheses").
Proof.
  induction stack as [|top stack IH]; intros output Hin; simpl.
  - destruct Hin as [[]|[]].
  - unfold Py.in_tuple; cbn [existsb].
    destruct (String.eqb_spec top "("); [reflexivity|].
    destruct (String.eqb_spec top ")"); [reflexivity|].
    cbn [orb]. apply IH. destruct Hin as [[?|?]|[?|?]]; try congruence; tauto.
Qed.

Lemma drain_no_paren (stack : list string) :
  forall output,
    ~ In "(" stack -> ~ In ")" stack ->
    drain stack output = Ok (output ++ stack)%list.
Proof.
  induction stack as [|top stack IH]; intros output Hl Hr; simpl.
  - now rewrite app_nil_r.
  - unfold Py.in_tuple; cbn [existsb].
    destruct (String.eqb_spec top "(") as [->|_]; [exfalso; apply Hl; now left|].
    destruct (String.eqb_spec top ")") as [->|_]; [exfalso; apply Hr; now left|].
    cbn [orb]. rewrite IH by (intros Hin; (apply Hl + apply Hr); now right).
    now rewrite <- app_assoc.
Qed.

Lemma infix_loop_rparen (rest output stack : list string) :
  infix_loop (")" :: rest) output stack
  = match pop_to_paren stack output with
    | ([], _) => Raise (ValueError "Mismatched parentheses")
    | (_ :: stack', output') => infix_loop rest output' stack'
    end.
Proof. reflexivity. Qed.

(** C6: on a [')'] token [infix_to_postfix] raises
    [ValueError("Mismatched parentheses")] when the stack holds no ['(']
    (it empties before one is found), and otherwise moves the entries above
    the first ['('] to the output and discards that ['(']; once the tokens
    are consumed it raises the same error when a parenthesis is left on the
    stack, and otherwise appends the stack to the output.  Both
    [evaluate_expression("(3+4")] and [evaluate_expression("3+4)")] fail
    with that error, whose kind the specification calls SyntaxError. *)
Theorem mismatched_parentheses :
  (forall rest output stack,
      ~ In "(" stack ->
      infix_loop (")" :: rest) output stack
      = Raise (ValueError "Mismatched parentheses"))
  /\ (forall rest output above below,
         ~ In "(" above ->
         infix_loop (")" :: rest) output (above ++ "(" :: below)
         = infix_loop rest (output ++ above) below)
  /\ (forall output stack,
         In "(" stack \/ In ")" stack ->
         infix_loop [] output stack
         = Raise (ValueError "Mismatched parentheses"))
  /\ (forall output stack,
         ~ In "(" stack -> ~ In ")" stack ->
         infix_loop [] output stack = Ok (output ++ stack)%list)
  /\ (forall math_pow,
         evaluate_expression math_pow "(3+4"
         = Raise (ValueError "Mismatched parentheses")
         /\ evaluate_expression math_pow "3+4)"
            = Raise (ValueError "Mismatched parentheses"))
  /\ is_SyntaxError (ValueError "Mismatched parentheses") = true.
Proof.
  split; [|split; [|split; [|split; [|split]]]].
  - intros rest output stack Hno.
    now rewrite infix_loop_rparen, pop_to_paren_none.
  - intros rest output above below Hno.
    now rewrite infix_loop_rparen, pop_to_paren_found.
  - intros output stack Hin. now apply drain_paren.
  - intros output stack Hl Hr. now apply drain_no_paren.
  - intros math_pow. split; vm_compute; reflexivity.
  - reflexivity.
Qed.

Lemma mismatched_parentheses_witness :
  infix_loop [")"; "*"; "2"] ["3"; "4"] ["+"]
  = Raise (ValueError "Mismatched parentheses")
  /\ infix_loop [] ["3"; "4"] ["+"; "("]
     = Raise (ValueError "Mismatched parentheses").
Proof.
  split.
  - apply (proj1 mismatched_parentheses).
    simpl. intros [H|[]]. discriminate H.
  - apply (proj1 (proj2 (proj2 mismatched_parentheses))).
    left. simpl. right. left. reflexivity.
Defined.

(** *** C7: insufficient operands, and the final check *)

Lemma eval_loop_binary_short math_pow (tok : string) (rest : list string)
  (stack : list float) (trace : list trace_entry) :
  In tok ["+"; "-"; "*"; "/"; "^"] ->
  List.length stack < 2 ->
  eval_loop math_pow (tok :: rest) stack trace
  = Raise (ValueError ("Insufficient operands for '" ++ tok ++ "'")).
Proof.
  intros Hin Hlen.
  destruct stack as [|b [|a stack]]; [| |simpl in Hlen; lia];
    simpl in Hin;
    repeat (destruct Hin as [<- | Hin]; [reflexivity|]);
    contradiction.
Qed.

(** C7: [evaluate_postfix] raises [ValueError("Insufficient operands ...")]
    when it processes a binary operator with fewer than two values on the
    stack, or a unary minus with none; after the last token it returns the
    single value left on the stack, and raises a [ValueError] when the stack
    does not hold exactly one value.  [evaluate_expression("3++4")] raises
    such an error, of the kind the specification calls SyntaxError. *)
Theorem insufficient_operands :
  forall math_pow,
    (forall tok rest stack trace,
        In tok ["+"; "-"; "*"; "/"; "^"] ->
        List.length stack < 2 ->
        eval_loop math_pow (tok :: rest) stack trace
        = Raise (ValueError ("Insufficient operands for '" ++ tok ++ "'")))
    /\ (forall rest stack trace,
           List.length stack < 1 ->
           eval_loop math_pow ("u-" :: rest) stack trace
           = Raise (ValueError "Insufficient operands for unary minus"))
    /\ (forall stack trace,
           List.length stack <> 1 ->
           eval_loop math_pow [] stack trace
           = Raise (ValueError msg_single_value))
    /\ (forall v trace, eval_loop math_pow [] [v] trace = Ok (v, trace))
    /\ evaluate_expression math_pow "3++4"
       = Raise (ValueError "Insufficient operands for '+'")
    /\ (forall msg, is_SyntaxError (ValueError msg) = true).
Proof.
  intros math_pow.
  split; [|split; [|split; [|split; [|split]]]].
  - intros tok rest stack trace. apply eval_loop_binary_short.
  - intros rest [|a stack] trace Hlen; [reflexivity | simpl in Hlen; lia].
  - intros [|x [|y stack]] trace Hlen; try reflexivity.
    simpl in Hlen. lia.
  - reflexivity.
  - vm_compute. reflexivity.
  - reflexivity.
Qed.

Lemma insufficient_operands_witness :
  eval_loop pow_ref ["*"; "2"] [3%float] [PUSH 3]
  = Raise (ValueError "Insufficient operands for '*'")
  /\ eval_loop pow_ref ["u-"] [] []
     = Raise (ValueError "Insufficient operands for unary minus")
  /\ eval_loop pow_ref [] [1%float; 2%float] []
     = Raise (ValueError msg_single_value).
Proof.
  split; [|split].
  - apply (proj1 (insufficient_operands pow_ref)); simpl; [tauto | lia].
  - apply (proj1 (proj2 (insufficient_operands pow_ref))); simpl; lia.
  - apply (proj1 (proj2 (proj2 (insufficient_operands pow_ref)))); simpl; lia.
Defined.

(** *** C8: numeric literals *)

Lemma tokenize_loop_number (ch : ascii) (rest : string) (tokens : list string) :
  is_num_char ch = true ->
  tokenize_loop (String ch rest) tokens
  = let num_str := fst (scan_number rest (String ch "")) in
    if (1 <? Py.count "." num_str)%nat
    then Raise (ValueError ("Invalid numeric literal: " ++ num_str))
    else tokenize_loop (snd (scan_number rest (String ch "")))
           (tokens ++ [num_str]).
Proof.
  intros H. rewrite tokenize_loop_equation_2.
  now rewrite (num_char_not_space ch H), H.
Qed.

Lemma maximal_runs_from_scan (s : string) :
  forall run,
    run <> "" ->
    maximal_runs_from s run
    = fst (scan_number s run) :: maximal_runs (snd (scan_number s run)).
Proof.
  induction s as [|c s IH]; intros run Hrun; simpl.
  - now destruct run.
  - unfold maximal_runs. destruct (is_num_char c) eqn:Hc.
    + apply IH. now destruct run.
    + simpl. rewrite Hc. now destruct run.
Qed.

Lemma maximal_runs_skip (ch : ascii) (rest : string) :
  is_num_char ch = false -> maximal_runs (String ch rest) = maximal_runs rest.
Proof. intros H. unfold maximal_runs. simpl. now rewrite H. Qed.

Lemma maximal_runs_number (ch : ascii) (rest : string) :
  is_num_char ch = true ->
  maximal_runs (String ch rest)
  = fst (scan_number rest (String ch ""))
      :: maximal_runs (snd (scan_number rest (String ch ""))).
Proof.
  intros H. unfold maximal_runs at 1. simpl. rewrite H.
  now apply maximal_runs_from_scan.
Qed.

Lemma tokenize_loop_runs (s : string) (tokens : list string) :
  forall toks,
    tokenize_loop s tokens = Ok toks ->
    filter starts_with_num_char toks
    = (filter starts_with_num_char tokens ++ maximal_runs s)%list
    /\ Forall (fun run => Py.count "." run <= 1) (maximal_runs s).
Proof.
  funelim (tokenize_loop s tokens); intros toks Hrun.
  - injection Hrun as <-. now rewrite app_nil_r.
  - clear Heqcall.
    destruct (Py.isspace ch) eqn:Hsp.
    { rewrite maximal_runs_skip; [now apply H|].
      destruct (is_num_char ch) eqn:Hc; [|reflexivity].
      apply num_char_not_space in Hc. congruence. }
    destruct (is_num_char ch) eqn:Hnum.
    + rewrite (maximal_runs_number ch rest Hnum).
      destruct (Nat.ltb_spec 1 (Py.count "." (fst (scan_number rest (String ch "")))))
        as [Hdots|Hdots]; [discriminate|].
      destruct (H0 toks Hrun) as [Hfil Hall].
      split; [|constructor; [lia | exact Hall]].
      rewrite Hfil, filter_app, <- app_assoc. f_equal.
      destruct (scan_number_spec rest (String ch "")) as (suffix & -> & _).
      simpl. now rewrite Hnum.
    + rewrite (maximal_runs_skip ch rest Hnum).
      destruct (Py.contains "+-*/^()" ch); [|discriminate].
      destruct ((ch =? "-")%char && unary_context tokens).
      * destruct (H1 toks Hrun) as [Hfil Hall]. split; [|exact Hall].
        rewrite Hfil, filter_app. simpl. now rewrite app_nil_r.
      * destruct (H2 toks Hrun) as [Hfil Hall]. split; [|exact Hall].
        rewrite Hfil, filter_app. simpl. rewrite Hnum. now rewrite app_nil_r.
Qed.

Lemma tokenize_loop_raises_ValueError (s : string) (tokens : list string) :
  forall e, tokenize_loop s tokens = Raise e -> exists msg, e = ValueError msg.
Proof.
  funelim (tokenize_loop s tokens); intros e Hrun.
  - discriminate.
  - clear Heqcall.
    destruct (Py.isspace ch); [now apply H|].
    destruct (is_num_char ch).
    + destruct (1 <? _)%nat; [injection Hrun as <-; eauto | now apply H0].
    + destruct (Py.contains "+-*/^()" ch); [|injection Hrun as <-; eauto].
      destruct ((ch =? "-")%char && unary_context tokens);
        [now apply H1 | now apply H2].
Qed.

(** C8: at a digit or a dot [tokenize] reads the maximal run of digits and
    dots that starts there; it raises [ValueError("Invalid numeric literal:
    ...")] when the run holds two dots or more, and otherwise emits the run
    as one token and goes on after it.  So the number tokens of a returned
    list are exactly the maximal runs of the text, each with at most one
    dot, and a text with a run of two dots or more is refused with a
    [ValueError].  A lone ["."] is emitted as a token. *)
Theorem numeric_literal_runs :
  (forall ch rest tokens,
      is_num_char ch = true ->
      exists run rest',
        String ch rest = run ++ rest'
        /\ all_chars is_num_char run = true
        /\ starts_with_num_char rest' = false
        /\ (2 <= Py.count "." run ->
            tokenize_loop (String ch rest) tokens
            = Raise (ValueError ("Invalid numeric literal: " ++ run)))
        /\ (Py.count "." run <= 1 ->
            tokenize_loop (String ch rest) tokens
            = tokenize_loop rest' (tokens ++ [run])))
  /\ (forall text toks,
         tokenize text = Ok toks ->
         filter starts_with_num_char toks = maximal_runs text
         /\ Forall (fun run => Py.count "." run <= 1) (maximal_runs text))
  /\ (forall text,
         Exists (fun run => 2 <= Py.count "." run) (maximal_runs text) ->
         exists msg, tokenize text = Raise (ValueError msg)
                     /\ is_SyntaxError (ValueError msg) = true)
  /\ tokenize "." = Ok ["."]
  /\ tokenize "12.5+.5*3." = Ok ["12.5"; "+"; ".5"; "*"; "3."]
  /\ tokenize "1.2.3+4" = Raise (ValueError "Invalid numeric literal: 1.2.3").
Proof.
  split; [|split; [|split; [|split; [|split]]]].
  - intros ch rest tokens Hch.
    destruct (scan_number_spec rest (String ch "")) as (tail & H1 & H2 & H3 & H4).
    exists (fst (scan_number rest (String ch ""))),
           (snd (scan_number rest (String ch ""))).
    rewrite (tokenize_loop_number ch rest tokens Hch). cbv zeta.
    split; [rewrite H1; simpl; congruence|].
    split; [rewrite H1; simpl; now rewrite Hch, H3|].
    split; [exact H4|].
    split; intros Hdots;
      destruct (Nat.ltb_spec 1 (Py.count "." (fst (scan_number rest (String ch "")))));
      (reflexivity || lia).
  - intros text toks Hrun.
    apply (tokenize_loop_runs text [] toks Hrun).
  - intros text Hex. destruct (tokenize text) as [toks|e] eqn:Hrun.
    + exfalso. apply (tokenize_loop_runs text [] toks) in Hrun as [_ Hall].
      apply Exists_exists in Hex as (run & Hin & Hdots).
      rewrite Forall_forall in Hall. specialize (Hall run Hin). lia.
    + destruct (tokenize_loop_raises_ValueError text [] e Hrun) as (msg & ->).
      exists msg. now split.
  - vm_compute. reflexivity.
  - vm_compute. reflexivity.
  - vm_compute. reflexivity.
Qed.

Lemma numeric_literal_runs_witness :
  (exists run rest',
      "3.14*2" = run ++ rest'
      /\ all_chars is_num_char run = true
      /\ starts_with_num_char rest' = false
      /\ (2 <= Py.count "." run ->
          tokenize_loop "3.14*2" ["("]
          = Raise (ValueError ("Invalid numeric literal: " ++ run)))
      /\ (Py.count "." run <= 1 ->
          tokenize_loop "3.14*2" ["("] = tokenize_loop rest' (["("] ++ [run])))
  /\ (filter starts_with_num_char ["1.5"; "+"; "."; "-"; "2"]
      = maximal_runs "1.5 + . - 2"
      /\ Forall (fun run => Py.count "." run <= 1) (maximal_runs "1.5 + . - 2"))
  /\ exists msg, tokenize "7+1..2" = Raise (ValueError msg)
                 /\ is_SyntaxError (ValueError msg) = true.
Proof.
  split; [|split].
  - apply (proj1 numeric_literal_runs "3"%char ".14*2" ["("]). reflexivity.
  - apply (proj1 (proj2 numeric_literal_runs) "1.5 + . - 2").
    vm_compute. reflexivity.
  - apply (proj1 (proj2 (proj2 numeric_literal_runs)) "7+1..2").
    vm_compute. right. left. lia.
Defined.

(** *** C9: determinism *)

(** A step of the second embedding, run from any globals, ends with the
    globals it started from, and what it raises is an exception of the
    engine: no subscript [OPERATORS[k]] fails, because each one is guarded by
    a test [k in OPERATORS] on globals that have not changed since. *)
Lemma stateful_pop_operators_returns (o1 : string) (stack : list string) :
  forall output g,
    dict_get (Stateful.g_OPERATORS g) o1 <> None ->
    exists r,
      Stateful.pop_operators o1 stack output g = (Stateful.Returns r, g).
Proof.
  induction stack as [|o2 stack IH]; intros output g Ho1.
  - eexists; reflexivity.
  - cbn [Stateful.pop_operators].
    unfold Stateful.bind, Stateful.in_OPERATORS, Stateful.get_OPERATORS,
      Stateful.ret.
    destruct (dict_get (Stateful.g_OPERATORS g) o1) as [i1|] eqn:E1;
      [|congruence].
    destruct (dict_get (Stateful.g_OPERATORS g) o2) as [i2|] eqn:E2;
      [|eexists; reflexivity].
    repeat (cbv beta iota; rewrite ?E1, ?E2).
    destruct ((assoc i1 =? "L") && (prec i1 <=? prec i2)%Z);
      [apply IH; congruence|].
    repeat (cbv beta iota; rewrite ?E1, ?E2).
    destruct ((assoc i1 =? "R") && (prec i1 <? prec i2)%Z);
      [apply IH; congruence | eexists; reflexivity].
Qed.

Lemma stateful_infix_loop_outcome (tokens : list string) :
  forall output stack g,
    exists r,
      Stateful.infix_loop tokens output stack g = (Stateful.of_result r, g).
Proof.
  induction tokens as [|tok rest IH]; intros output stack g.
  - eexists; reflexivity.
  - cbn [Stateful.infix_loop].
    destruct (is_number tok); [apply IH|].
    unfold Stateful.bind at 1, Stateful.in_OPERATORS.
    destruct (dict_get (Stateful.g_OPERATORS g) tok) as [i1|] eqn:E1.
    + unfold Stateful.bind.
      destruct (stateful_pop_operators_returns tok stack output g)
        as [[stack' output'] Hpop]; [congruence|].
      rewrite Hpop. apply IH.
    + destruct (tok =? "("); [apply IH|].
      destruct (tok =? ")");
        [|exists (Raise (ValueError ("Unknown token in infix_to_postfix: " ++ tok)));
          reflexivity].
      destruct (pop_to_paren stack output) as [[|top stack'] output'];
        [exists (Raise (ValueError "Mismatched parentheses")); reflexivity
        | apply IH].
Qed.

Lemma stateful_eval_loop_outcome math_pow (postfix : list string) :
  forall stack trace g,
    exists r,
      Stateful.eval_loop math_pow postfix stack trace g
      = (Stateful.of_result r, g).
Proof.
  induction postfix as [|tok rest IH]; intros stack trace g.
  - destruct stack as [|v [|w stack]];
      [eexists (Raise _) | eexists (Ok _) | eexists (Raise _)]; reflexivity.
  - cbn [Stateful.eval_loop].
    destruct (Py.float tok); [apply IH|].
    unfold Stateful.bind at 1, Stateful.in_OPERATORS.
    destruct (dict_get (Stateful.g_OPERATORS g) tok);
      [|eexists (Raise _); reflexivity].
    destruct (tok =? "u-").
    + destruct stack; [eexists (Raise _); reflexivity | apply IH].
    + destruct stack as [|b [|a stack]]; try (eexists (Raise _); reflexivity).
      unfold Stateful.bind, Stateful.call.
      destruct (apply_op math_pow a b tok) as [res|e];
        [apply IH | exists (Raise e); reflexivity].
Qed.

Lemma stateful_evaluate_expression_outcome math_pow (text : string) :
  forall g,
    exists r,
      Stateful.evaluate_expression math_pow text g = (Stateful.of_result r, g).
Proof.
  intros g. unfold Stateful.evaluate_expression, Stateful.evaluate_postfix,
    Stateful.infix_to_postfix, Stateful.bind, Stateful.call, Stateful.ret.
  destruct (tokenize text) as [tokens|e]; [|exists (Raise e); reflexivity].
  cbn [Stateful.of_result].
  destruct (stateful_infix_loop_outcome tokens [] [] g) as [[postfix|e] H1];
    rewrite H1; [|exists (Raise e); reflexivity].
  cbn [Stateful.of_result].
  destruct (stateful_eval_loop_outcome math_pow postfix [] [] g)
    as [[[v trace]|e] H2]; rewrite H2;
    [eexists (Ok _) | exists (Raise e)]; reflexivity.
Qed.

(** With the table the source defines in [OPERATORS], the steps compute what
    the functions of the first embedding compute. *)
Lemma stateful_pop_operators_run (o1 : string) (i1 : op_info)
  (stack : list string) :
  forall output g,
    Stateful.g_OPERATORS g = OPERATORS ->
    dict_get OPERATORS o1 = Some i1 ->
    Stateful.pop_operators o1 stack output g
    = (Stateful.Returns (pop_operators i1 stack output), g).
Proof.
  induction stack as [|o2 stack IH]; intros output g Hg Ho1; [reflexivity|].
  cbn [Stateful.pop_operators pop_operators].
  unfold Stateful.bind, Stateful.in_OPERATORS, Stateful.get_OPERATORS,
    Stateful.ret.
  rewrite Hg.
  destruct (dict_get OPERATORS o2) as [i2|] eqn:E2; [|reflexivity].
  repeat (cbv beta iota; rewrite ?Hg, ?Ho1, ?E2). unfold pops.
  destruct ((assoc i1 =? "L") && (prec i1 <=? prec i2)%Z);
    [now apply IH|]. cbn [orb].
  repeat (cbv beta iota; rewrite ?Hg, ?Ho1, ?E2).
  destruct ((assoc i1 =? "R") && (prec i1 <? prec i2)%Z);
    [now apply IH | reflexivity].
Qed.

Lemma stateful_infix_loop_run (tokens : list string) :
  forall output stack g,
    Stateful.g_OPERATORS g = OPERATORS ->
    Stateful.infix_loop tokens output stack g
    = (Stateful.of_result (infix_loop tokens output stack), g).
Proof.
  induction tokens as [|tok rest IH]; intros output stack g Hg; [reflexivity|].
  cbn [Stateful.infix_loop infix_loop].
  destruct (is_number tok); [now apply IH|].
  unfold Stateful.bind at 1, Stateful.in_OPERATORS. rewrite Hg.
  destruct (dict_get OPERATORS tok) as [i1|] eqn:E1.
  - unfold Stateful.bind.
    rewrite (stateful_pop_operators_run tok i1 stack output g Hg E1).
    destruct (pop_operators i1 stack output) as [stack' output'].
    now apply IH.
  - destruct (tok =? "("); [now apply IH|].
    destruct (tok =? ")"); [|reflexivity].
    destruct (pop_to_paren stack output) as [[|top stack'] output'];
      [reflexivity | now apply IH].
Qed.

Lemma stateful_eval_loop_run math_pow (postfix : list string) :
  forall stack trace g,
    Stateful.g_OPERATORS g = OPERATORS ->
    Stateful.eval_loop math_pow postfix stack trace g
    = (Stateful.of_result (eval_loop math_pow postfix stack trace), g).
Proof.
  induction postfix as [|tok rest IH]; intros stack trace g Hg.
  - destruct stack as [|v [|w stack]]; reflexivity.
  - cbn [Stateful.eval_loop eval_loop].
    destruct (Py.float tok); [now apply IH|].
    unfold Stateful.bind at 1, Stateful.in_OPERATORS. rewrite Hg.
    destruct (dict_get OPERATORS tok); [|reflexivity].
    destruct (tok =? "u-").
    + destruct stack; [reflexivity | now apply IH].
    + destruct stack as [|b [|a stack]]; try reflexivity.
      unfold Stateful.bind, Stateful.call.
      destruct (apply_op math_pow a b tok); cbn [bind Stateful.of_result];
        [now apply IH | reflexivity].
Qed.

Lemma stateful_evaluate_expression_run math_pow (text : string) :
  forall g,
    Stateful.g_OPERATORS g = OPERATORS ->
    Stateful.evaluate_expression math_pow text g
    = (Stateful.of_result (evaluate_expression math_pow text), g).
Proof.
  intros g Hg. unfold Stateful.evaluate_expression, Stateful.evaluate_postfix,
    Stateful.infix_to_postfix, Stateful.bind, Stateful.call, Stateful.ret.
  unfold evaluate_expression, evaluate_postfix, infix_to_postfix.
  destruct (tokenize text) as [tokens|e]; [|reflexivity].
  cbn [bind Stateful.of_result].
  rewrite (stateful_infix_loop_run tokens [] [] g Hg).
  destruct (infix_loop tokens [] []) as [postfix|e]; [|reflexivity].
  cbn [bind Stateful.of_result].
  rewrite (stateful_eval_loop_run math_pow postfix [] [] g Hg).
  destruct (eval_loop math_pow postfix [] []) as [[v trace]|e]; reflexivity.
Qed.

(** The outcome does depend on the global table: with an empty [OPERATORS]
    the text ["1+2"] is refused, with the source's table it evaluates.  A
    call that changed the table would change the calls after it. *)
Lemma outcome_depends_on_OPERATORS :
  fst (Stateful.evaluate_expression pow_ref "1+2"
         {| Stateful.g_OPERATORS := [] |})
  <> fst (Stateful.evaluate_expression pow_ref "1+2" initial_globals).
Proof. vm_compute. discriminate. Qed.

(** C9: [evaluate_expression] is deterministic and keeps no state between
    calls.  Started with any globals [g], a call leaves the globals as they
    were, on success and on failure, so a second call on the same text, run
    on the globals the first one left, ends exactly as the first: the same
    [(value, tokens, postfix, trace)] or the same exception.  No call fails
    with a [KeyError] on [OPERATORS], whatever the table holds.  With the
    table the source defines, the outcome is the one computed by
    [evaluate_expression] of the first embedding, a function of the text and
    of the values of [math.pow]. *)
Theorem evaluate_expression_repeatable :
  forall math_pow text g,
    let first := Stateful.evaluate_expression math_pow text g in
    let second := Stateful.evaluate_expression math_pow text (snd first) in
    snd first = g
    /\ second = first
    /\ (forall key, fst first <> Stateful.Raises (Stateful.KeyError key))
    /\ (Stateful.g_OPERATORS g = OPERATORS ->
        fst first = Stateful.of_result (evaluate_expression math_pow text)).
Proof.
  intros math_pow text g first second. subst second first.
  destruct (stateful_evaluate_expression_outcome math_pow text g) as [r Hr].
  rewrite Hr. cbn [fst snd]. rewrite Hr. cbn [fst].
  split; [reflexivity|]. split; [reflexivity|]. split.
  - intros key. destruct r; discriminate.
  - intros Hg.
    pose proof (stateful_evaluate_expression_run math_pow text g Hg) as Hrun.
    rewrite Hr in Hrun. now inversion Hrun.
Qed.

Lemma evaluate_expression_repeatable_witness :
  snd (Stateful.evaluate_expression pow_ref "2^3^2 - 1/4" initial_globals)
  = initial_globals
  /\ Stateful.evaluate_expression pow_ref "2^3^2 - 1/4"
       (snd (Stateful.evaluate_expression pow_ref "2^3^2 - 1/4"
               initial_globals))
     = Stateful.evaluate_expression pow_ref "2^3^2 - 1/4" initial_globals
  /\ fst (Stateful.evaluate_expression pow_ref "2^3^2 - 1/4" initial_globals)
     = Stateful.of_result (evaluate_expression pow_ref "2^3^2 - 1/4").
Proof.
  destruct (evaluate_expression_repeatable pow_ref "2^3^2 - 1/4"
              initial_globals) as (H1 & H2 & _ & H4).
  split; [exact H1|]. split; [exact H2|]. apply H4. reflexivity.
Defined.

(** *** C10: empty and blank texts *)

Lemma tokenize_loop_blank (text : string) :
  forall tokens,
    all_chars Py.isspace text = true -> tokenize_loop text tokens = Ok tokens.
Proof.
  induction text as [|ch rest IH]; intros tokens H.
  - apply tokenize_loop_nil.
  - simpl in H. apply andb_prop in H as [Hch Hrest].
    rewrite tokenize_loop_space by exact Hch. now apply IH.
Qed.

(** C10: for a text that is empty or made of whitespace only, [tokenize]
    returns the empty list and [evaluate_expression] raises the
    [ValueError] of the final check of [evaluate_postfix]. *)
Theorem blank_text_is_rejected :
  forall math_pow text,
    all_chars Py.isspace text = true ->
    tokenize text = Ok []
    /\ evaluate_expression math_pow text = Raise (ValueError msg_single_value)
    /\ is_SyntaxError (ValueError msg_single_value) = true.
Proof.
  intros math_pow text H.
  assert (Htok : tokenize text = Ok []) by now apply tokenize_loop_blank.
  split; [exact Htok|]. split; [|reflexivity].
  unfold evaluate_expression. rewrite Htok. reflexivity.
Qed.

Lemma blank_text_is_rejected_witness :
  tokenize "   " = Ok []
  /\ evaluate_expression pow_ref "   " = Raise (ValueError msg_single_value)
  /\ is_SyntaxError (ValueError msg_single_value) = true.
Proof.
  apply (blank_text_is_rejected pow_ref "   "). reflexivity.
Defined.

(** ** Further properties of the tokenizer *)

Lemma all_chars_append (p : ascii -> bool) (a b : string) :
  all_chars p (a ++ b) = all_chars p a && all_chars p b.
Proof.
  induction a as [|d a IH]; simpl; [reflexivity|].
  now rewrite IH, andb_assoc.
Qed.

Lemma all_chars_impl (p q : ascii -> bool) (s : string) :
  (forall c, p c = true -> q c = true) ->
  all_chars p s = true -> all_chars q s = true.
Proof.
  intros Hpq. induction s as [|c s IH]; simpl; [reflexivity|].
  intros H. apply andb_prop in H as [Hc Hs].
  now rewrite (Hpq c Hc), IH.
Qed.

Lemma space_not_num_char (ch : ascii) :
  Py.isspace ch = true -> is_num_char ch = false.
Proof.
  intros H. destruct (is_num_char ch) eqn:Hc; [|reflexivity].
  apply num_char_not_space in Hc. congruence.
Qed.

Lemma structural_char (ch : ascii) :
  Py.contains "+-*/^()" ch = true ->
  In (String ch "") ["+"; "-"; "*"; "/"; "^"; "("; ")"]
  /\ Py.isspace ch = false /\ is_num_char ch = false.
Proof.
  destruct ch as [[] [] [] [] [] [] [] []]; vm_compute; intros H;
    try discriminate H; intuition congruence.
Qed.

Lemma tokenize_loop_structural (ch : ascii) (rest : string)
  (tokens : list string) :
  Py.contains "+-*/^()" ch = true ->
  tokenize_loop (String ch rest) tokens
  = tokenize_loop rest
      (tokens ++ [if (ch =? "-")%char && unary_context tokens
                  then "u-" else String ch ""]).
Proof.
  intros H. destruct (structural_char ch H) as (_ & Hsp & Hnum).
  rewrite tokenize_loop_equation_2, Hsp, Hnum, H.
  now destruct ((ch =? "-")%char && unary_context tokens).
Qed.

Lemma tokenize_loop_unsupported (ch : ascii) (rest : string)
  (tokens : list string) :
  allowed_char ch = false ->
  tokenize_loop (String ch rest) tokens
  = Raise (ValueError ("Unsupported character: '" ++ String ch "'")).
Proof.
  unfold allowed_char. intros H.
  apply orb_false_elim in H as [H Hst].
  apply orb_false_elim in H as [Hsp Hnum].
  now rewrite tokenize_loop_equation_2, Hsp, Hnum, Hst.
Qed.

(** The cases of one step of the tokenizer loop. *)
Lemma char_cases (ch : ascii) :
  Py.isspace ch = true
  \/ is_num_char ch = true
  \/ Py.contains "+-*/^()" ch = true
  \/ allowed_char ch = false.
Proof.
  unfold allowed_char.
  destruct (Py.isspace ch); [now left|].
  destruct (is_num_char ch); [now right; left|].
  destruct (Py.contains "+-*/^()" ch); [now right; right; left|].
  now right; right; right.
Qed.

Lemma tokenize_loop_accepts (s : string) (tokens : list string) :
  (exists toks, tokenize_loop s tokens = Ok toks)
  <-> all_chars allowed_char s = true
      /\ Forall (fun run => Py.count "." run <= 1) (maximal_runs s).
Proof.
  funelim (tokenize_loop s tokens).
  - split; [intros _; split; [reflexivity | constructor] | eauto].
  - clear Heqcall. simpl all_chars.
    destruct (char_cases ch) as [Hsp | [Hnum | [Hst | Hbad]]].
    + rewrite Hsp. unfold allowed_char at 1. rewrite Hsp. cbn [orb andb].
      now rewrite (maximal_runs_skip ch rest (space_not_num_char ch Hsp)).
    + rewrite (num_char_not_space ch Hnum), Hnum.
      unfold allowed_char at 1. rewrite Hnum, orb_true_r. cbn [orb andb].
      rewrite (maximal_runs_number ch rest Hnum).
      destruct (scan_number_spec rest (String ch "")) as (tail & _ & Hrest & Htail & _).
      assert (Hall : all_chars allowed_char rest
                     = all_chars allowed_char (snd (scan_number rest (String ch "")))).
      { rewrite Hrest at 1. rewrite all_chars_append.
        rewrite (all_chars_impl is_num_char allowed_char tail); [reflexivity | | exact Htail].
        intros c Hc. unfold allowed_char. now rewrite Hc, orb_true_r. }
      rewrite Hall.
      destruct (Nat.ltb_spec 1 (Py.count "." (fst (scan_number rest (String ch "")))))
        as [Hdots|Hdots].
      * split; [intros (toks & Heq); discriminate|].
        intros (_ & HF). inversion HF; subst. lia.
      * rewrite H0. split.
        -- intros (Ha & HF). split; [exact Ha | now constructor].
        -- intros (Ha & HF). inversion HF; subst. now split.
    + destruct (structural_char ch Hst) as (_ & Hsp & Hnum).
      rewrite Hsp, Hnum, Hst.
      unfold allowed_char at 1. rewrite Hst, !orb_true_r. cbn [andb].
      rewrite (maximal_runs_skip ch rest Hnum).
      now destruct ((ch =? "-")%char && unary_context tokens).
    + rewrite Hbad. cbn [andb].
      unfold allowed_char in Hbad.
      apply orb_false_elim in Hbad as [Hbad Hst].
      apply orb_false_elim in Hbad as [Hsp Hnum].
      rewrite Hsp, Hnum, Hst.
      split; [intros (toks & Heq); discriminate | intros [Heq _]; discriminate].
Qed.

(** X1: [tokenize] succeeds exactly on the texts made of whitespace, digits,
    dots and the characters of ['+-*/^()'] whose maximal runs of digits and
    dots hold at most one dot each. *)
Theorem tokenize_accepts :
  forall text,
    (exists toks, tokenize text = Ok toks)
    <-> all_chars allowed_char text = true
        /\ Forall (fun run => Py.count "." run <= 1) (maximal_runs text).
Proof. intros text. apply tokenize_loop_accepts. Qed.

Lemma join_app (l1 l2 : list string) :
  join (l1 ++ l2) = join l1 ++ join l2.
Proof.
  unfold join. induction l1 as [|x l1 IH]; simpl; [reflexivity|].
  rewrite IH. clear. induction x as [|c x IH]; simpl; congruence.
Qed.

Lemma join_snoc (l : list string) (x : string) :
  join (map token_text (l ++ [x])) = join (map token_text l) ++ token_text x.
Proof.
  rewrite map_app, join_app. unfold join at 2. simpl.
  now rewrite append_empty.
Qed.

Lemma append_assoc (a b c : string) : (a ++ b) ++ c = a ++ (b ++ c).
Proof. induction a as [|d a IH]; simpl; congruence. Qed.

Lemma remove_spaces_run (tail rest : string) :
  all_chars is_num_char tail = true ->
  remove_spaces (tail ++ rest) = tail ++ remove_spaces rest.
Proof.
  induction tail as [|c tail IH]; simpl; [reflexivity|].
  intros H. apply andb_prop in H as [Hc Ht].
  now rewrite (num_char_not_space c Hc), IH.
Qed.

Lemma tokenize_loop_text (s : string) (tokens : list string) :
  forall toks,
    tokenize_loop s tokens = Ok toks ->
    join (map token_text toks)
    = join (map token_text tokens) ++ remove_spaces s.
Proof.
  funelim (tokenize_loop s tokens); intros toks Hrun.
  - injection Hrun as <-. now rewrite append_empty.
  - clear Heqcall. cbn [remove_spaces].
    destruct (char_cases ch) as [Hsp | [Hnum | [Hst | Hbad]]].
    + rewrite Hsp in *. now apply H.
    + rewrite (num_char_not_space ch Hnum), Hnum in *.
      destruct (1 <? _)%nat; [discriminate|].
      rewrite (H0 toks Hrun), join_snoc, append_assoc. f_equal.
      destruct (scan_number_spec rest (String ch "")) as (tail & Hfst & Hrest & Htail & _).
      assert (Hrs : remove_spaces rest
                    = tail ++ remove_spaces (snd (scan_number rest (String ch "")))).
      { rewrite Hrest at 1. now apply remove_spaces_run. }
      rewrite Hrs, Hfst. unfold token_text. simpl.
      destruct (Ascii.eqb_spec ch "u"); [subst; discriminate Hnum|].
      reflexivity.
    + destruct (structural_char ch Hst) as (Hin & Hsp & Hnum).
      rewrite Hsp, Hnum, Hst in *.
      destruct (Ascii.eqb_spec ch "-") as [->|Hne]; cbn [andb] in Hrun.
      * destruct (unary_context tokens).
        -- now rewrite (H1 toks Hrun), join_snoc, append_assoc.
        -- now rewrite (H2 toks Hrun), join_snoc, append_assoc.
      * rewrite (H2 toks Hrun), join_snoc, append_assoc. f_equal.
        unfold token_text. simpl.
        destruct (Ascii.eqb_spec ch "u"); [subst; discriminate Hst | reflexivity].
    + unfold allowed_char in Hbad.
      apply orb_false_elim in Hbad as [Hbad Hst].
      apply orb_false_elim in Hbad as [Hsp Hnum].
      rewrite Hsp, Hnum, Hst in Hrun. discriminate.
Qed.

(** X2: the tokens [tokenize] returns spell the text without its
    whitespace, once each ['u-'] is read back as ['-']: nothing else is
    dropped, added or reordered. *)
Theorem tokenize_round_trip :
  forall text toks,
    tokenize text = Ok toks ->
    join (map token_text toks) = remove_spaces text.
Proof.
  intros text toks H. now rewrite (tokenize_loop_text text [] toks H).
Qed.

Lemma tokenize_round_trip_witness :
  join (map token_text ["("; "u-"; "3.5"; "-"; "u-"; "2"; ")"])
  = remove_spaces " ( -3.5 - -2 ) ".
Proof.
  apply (tokenize_round_trip " ( -3.5 - -2 ) ").
  vm_compute. reflexivity.
Defined.

Lemma tokenize_loop_shapes (s : string) (tokens : list string) :
  forall toks,
    Forall token_shape tokens ->
    tokenize_loop s tokens = Ok toks ->
    Forall token_shape toks.
Proof.
  funelim (tokenize_loop s tokens); intros toks Hinv Hrun.
  - now injection Hrun as <-.
  - clear Heqcall.
    destruct (char_cases ch) as [Hsp | [Hnum | [Hst | Hbad]]].
    + rewrite Hsp in *. now apply (H toks).
    + rewrite (num_char_not_space ch Hnum), Hnum in *.
      destruct (Nat.ltb_spec 1 (Py.count "." (fst (scan_number rest (String ch "")))))
        as [Hdots|Hdots]; [discriminate|].
      apply (H0 toks); [|exact Hrun].
      apply Forall_app. split; [exact Hinv|]. constructor; [|constructor].
      right. right.
      destruct (scan_number_spec rest (String ch "")) as (tail & Hfst & _ & Htail & _).
      split; [|split; [|exact Hdots]]; rewrite Hfst; simpl; now rewrite Hnum.
    + destruct (structural_char ch Hst) as (Hin & Hsp & Hnum).
      rewrite Hsp, Hnum, Hst in *.
      destruct ((ch =? "-")%char && unary_context tokens).
      * apply (H1 toks); [|exact Hrun].
        apply Forall_app. split; [exact Hinv|]. constructor; [now left | constructor].
      * apply (H2 toks); [|exact Hrun].
        apply Forall_app. split; [exact Hinv|].
        constructor; [right; left; exact Hin | constructor].
    + unfold allowed_char in Hbad.
      apply orb_false_elim in Hbad as [Hbad Hst].
      apply orb_false_elim in Hbad as [Hsp Hnum].
      rewrite Hsp, Hnum, Hst in Hrun. discriminate.
Qed.

Lemma tokenize_token_shapes_aux (text : string) (toks : list string) :
  tokenize text = Ok toks -> Forall token_shape toks.
Proof. intros H. now apply (tokenize_loop_shapes text [] toks). Qed.

(** X3: every token [tokenize] returns is ['u-'], one of the seven
    structural characters, or a non-empty run of digits and dots with at
    most one dot. *)
Theorem tokenize_token_shapes :
  forall text toks,
    tokenize text = Ok toks -> Forall token_shape toks.
Proof.
  intros text toks H. now apply (tokenize_loop_shapes text [] toks).
Qed.

Lemma tokenize_token_shapes_witness :
  Forall token_shape ["u-"; ".5"; "*"; "("; "2."; "-"; "1"; ")"].
Proof.
  apply (tokenize_token_shapes "-.5*(2. - 1)").
  vm_compute. reflexivity.
Defined.

Lemma tokenize_loop_skip_blank (blank s : string) (tokens : list string) :
  all_chars Py.isspace blank = true ->
  tokenize_loop (blank ++ s) tokens = tokenize_loop s tokens.
Proof.
  induction blank as [|c blank IH]; simpl; intros H; [reflexivity|].
  apply andb_prop in H as [Hc Hb].
  now rewrite tokenize_loop_space, IH.
Qed.

Lemma scan_number_run (a x acc : string) :
  all_chars is_num_char a = true ->
  scan_number (a ++ x) acc = scan_number x (acc ++ a).
Proof.
  revert acc. induction a as [|c a IH]; simpl; intros acc H.
  - now rewrite append_empty.
  - apply andb_prop in H as [Hc Ha].
    now rewrite Hc, IH, append_snoc.
Qed.

Lemma scan_number_stop (x acc : string) :
  starts_with_num_char x = false -> scan_number x acc = (acc, x).
Proof. destruct x as [|c x]; simpl; [reflexivity|]. now intros ->. Qed.

Lemma num_run_or_stop (a : string) :
  all_chars is_num_char a = true
  \/ exists a1 c a2,
       a = a1 ++ String c a2
       /\ all_chars is_num_char a1 = true /\ is_num_char c = false.
Proof.
  induction a as [|d a IH]; [now left|].
  destruct (is_num_char d) eqn:Hd.
  - destruct IH as [Hall | (a1 & c & a2 & -> & H1 & Hc)].
    + left. simpl. now rewrite Hd.
    + right. exists (String d a1), c, a2. simpl. now rewrite Hd.
  - right. exists "", d, a. now simpl.
Qed.

Lemma ends_with_num_char_append (x : string) (c : ascii) (y : string) :
  ends_with_num_char (x ++ String c y) = ends_with_num_char (String c y).
Proof.
  induction x as [|d x IH]; [reflexivity|].
  change (ends_with_num_char (String d (x ++ String c y))
          = ends_with_num_char (String c y)).
  cbn [ends_with_num_char]. destruct x; exact IH.
Qed.

Lemma ends_with_num_char_run (c : ascii) (a : string) :
  all_chars is_num_char (String c a) = true ->
  ends_with_num_char (String c a) = true.
Proof.
  revert c. induction a as [|d a IH]; intros c H; simpl in H.
  - now rewrite andb_true_r in H.
  - apply andb_prop in H as [_ H]. now apply IH.
Qed.

Lemma starts_with_num_char_blank (blank b : string) :
  all_chars Py.isspace blank = true ->
  starts_with_num_char b = false ->
  starts_with_num_char (blank ++ b) = false.
Proof.
  destruct blank as [|c blank]; simpl; [tauto|].
  intros H _. apply andb_prop in H as [Hc _].
  now apply space_not_num_char.
Qed.

Lemma tokenize_loop_insert_blank (n : nat) :
  forall a blank b tokens,
    String.length a <= n ->
    all_chars Py.isspace blank = true ->
    ends_with_num_char a && starts_with_num_char b = false ->
    tokenize_loop (a ++ blank ++ b) tokens = tokenize_loop (a ++ b) tokens.
Proof.
  induction n as [|n IH]; intros a blank b tokens Hlen Hblank Hedge.
  - destruct a; [|simpl in Hlen; lia].
    cbn [append]. now apply tokenize_loop_skip_blank.
  - destruct a as [|ch a];
      [cbn [append]; now apply tokenize_loop_skip_blank|].
    simpl in Hlen.
    assert (Hnext : forall tokens',
               tokenize_loop (a ++ blank ++ b) tokens'
               = tokenize_loop (a ++ b) tokens').
    { intros tokens'. apply IH; [lia | exact Hblank|].
      destruct a; [reflexivity | exact Hedge]. }
    change (String ch a ++ blank ++ b) with (String ch (a ++ blank ++ b)).
    change (String ch a ++ b) with (String ch (a ++ b)).
    destruct (char_cases ch) as [Hsp | [Hnum | [Hst | Hbad]]].
    + now rewrite !tokenize_loop_space.
    + rewrite !tokenize_loop_number by exact Hnum. cbv zeta.
      destruct (num_run_or_stop a) as [Hall | (a1 & c & a2 & -> & H1 & Hc)].
      * assert (Hb : starts_with_num_char b = false).
        { rewrite (ends_with_num_char_run ch a) in Hedge; [exact Hedge|].
          simpl. now rewrite Hnum. }
        rewrite !(scan_number_run a) by exact Hall.
        rewrite (scan_number_stop b) by exact Hb.
        rewrite (scan_number_stop (blank ++ b))
          by now apply starts_with_num_char_blank.
        cbn [fst snd].
        now rewrite tokenize_loop_skip_blank.
      * rewrite !append_assoc.
        rewrite !(scan_number_run a1) by exact H1.
        rewrite !scan_number_stop by (simpl; exact Hc).
        cbn [fst snd].
        destruct (1 <? _)%nat; [reflexivity|].
        apply IH; [|exact Hblank|].
        -- assert (Hl : String.length (a1 ++ String c a2)
                        = String.length a1 + S (String.length a2)).
           { clear. induction a1; simpl; lia. }
           simpl. lia.
        -- change (String ch (a1 ++ String c a2))
             with (String ch a1 ++ String c a2) in Hedge.
           now rewrite ends_with_num_char_append in Hedge.
    + now rewrite !tokenize_loop_structural.
    + now rewrite !tokenize_loop_unsupported.
Qed.

(** X4: whitespace matters only inside a numeric literal.  Whitespace
    inserted between two parts of a text, unless the first part ends and the
    second starts with a digit or a dot, changes neither the tokens nor the
    outcome of [evaluate_expression]; this covers leading and trailing
    whitespace. *)
Theorem whitespace_between_tokens :
  forall math_pow a blank b,
    all_chars Py.isspace blank = true ->
    ends_with_num_char a && starts_with_num_char b = false ->
    tokenize (a ++ blank ++ b) = tokenize (a ++ b)
    /\ evaluate_expression math_pow (a ++ blank ++ b)
       = evaluate_expression math_pow (a ++ b).
Proof.
  intros math_pow a blank b Hblank Hedge.
  assert (Htok : tokenize (a ++ blank ++ b) = tokenize (a ++ b)).
  { unfold tokenize. now apply (tokenize_loop_insert_blank (String.length a)). }
  split; [exact Htok|]. unfold evaluate_expression. now rewrite Htok.
Qed.

Lemma whitespace_between_tokens_witness :
  tokenize ("12" ++ "  " ++ "+3") = tokenize ("12" ++ "+3")
  /\ evaluate_expression pow_ref ("12" ++ "  " ++ "+3")
     = evaluate_expression pow_ref ("12" ++ "+3").
Proof.
  apply (whitespace_between_tokens pow_ref "12" "  " "+3"); reflexivity.
Defined.

(** ** Further properties of the converter *)

Lemma operator_facts (tok : string) :
  is_operator tok = true ->
  is_number tok = false /\ is_paren tok = false
  /\ tok <> "(" /\ tok <> ")".
Proof.
  unfold is_operator. destruct (dict_get OPERATORS tok) as [i|] eqn:H;
    [intros _ | discriminate].
  apply is_operator_key in H. simpl in H.
  repeat (destruct H as [<- | H];
          [repeat split; (vm_compute; reflexivity) || discriminate|]).
  contradiction.
Qed.

Lemma paren_facts (tok : string) :
  is_paren tok = true ->
  (tok = "(" \/ tok = ")") /\ is_number tok = false /\ is_operator tok = false.
Proof.
  unfold is_paren. rewrite in_tuple_In. simpl.
  intros [<- | [<- | []]]; split; (tauto || (split; vm_compute; reflexivity)).
Qed.

Lemma pop_operators_split (i1 : op_info) (stack : list string) :
  forall output, exists popped remaining,
    stack = (popped ++ remaining)%list
    /\ Forall (fun t => is_operator t = true) popped
    /\ pop_operators i1 stack output = (remaining, (output ++ popped)%list).
Proof.
  induction stack as [|o2 stack IH]; intros output.
  - exists [], []. simpl. now rewrite app_nil_r.
  - cbn [pop_operators].
    destruct (dict_get OPERATORS o2) as [i2|] eqn:H2.
    + destruct (pops i1 i2).
      * destruct (IH (output ++ [o2])%list) as (popped & remaining & -> & Hall & ->).
        exists (o2 :: popped), remaining.
        split; [reflexivity|]. split; [|now rewrite <- app_assoc].
        constructor; [|exact Hall]. unfold is_operator. now rewrite H2.
      * exists [], (o2 :: stack). now rewrite app_nil_r.
    + exists [], (o2 :: stack). now rewrite app_nil_r.
Qed.

Lemma split_at_lparen (stack : list string) :
  ~ In "(" stack
  \/ exists above below,
       stack = (above ++ "(" :: below)%list /\ ~ In "(" above.
Proof.
  induction stack as [|top stack IH]; [left; intros []|].
  destruct (string_dec top "(") as [->|Hne].
  - right. exists [], stack. split; [reflexivity | intros []].
  - destruct IH as [Hno | (above & below & -> & Hno)].
    + left. intros [H|H]; [congruence | contradiction].
    + right. exists (top :: above), below. split; [reflexivity|].
      intros [H|H]; [congruence | contradiction].
Qed.

(** One iteration of the [for] loop of [infix_to_postfix], by cases on the
    token. *)
Lemma infix_loop_cases (tok : string) (rest output stack : list string) :
  (is_number tok = true
   /\ infix_loop (tok :: rest) output stack
      = infix_loop rest (output ++ [tok]) stack)
  \/ (is_operator tok = true
      /\ exists popped remaining,
           stack = (popped ++ remaining)%list
           /\ Forall (fun t => is_operator t = true) popped
           /\ infix_loop (tok :: rest) output stack
              = infix_loop rest (output ++ popped) (tok :: remaining))
  \/ (tok = "("
      /\ infix_loop (tok :: rest) output stack
         = infix_loop rest output ("(" :: stack))
  \/ (tok = ")"
      /\ exists above below,
           stack = (above ++ "(" :: below)%list
           /\ ~ In "(" above
           /\ infix_loop (tok :: rest) output stack
              = infix_loop rest (output ++ above) below)
  \/ (tok = ")"
      /\ ~ In "(" stack
      /\ infix_loop (tok :: rest) output stack
         = Raise (ValueError "Mismatched parentheses"))
  \/ (known_token tok = false
      /\ infix_loop (tok :: rest) output stack
         = Raise (ValueError ("Unknown token in infix_to_postfix: " ++ tok))).
Proof.
  destruct (is_number tok) eqn:Hnum.
  { left. split; [reflexivity|]. cbn [infix_loop]. now rewrite Hnum. }
  right.
  destruct (dict_get OPERATORS tok) as [i1|] eqn:Hop.
  { left. split; [unfold is_operator; now rewrite Hop|].
    destruct (pop_operators_split i1 stack output)
      as (popped & remaining & Hsplit & Hall & Hpop).
    exists popped, remaining. split; [exact Hsplit|]. split; [exact Hall|].
    now rewrite (infix_loop_operator tok i1 rest output stack Hop), Hpop. }
  right.
  destruct (String.eqb_spec tok "(") as [->|Hl].
  { left. split; reflexivity. }
  right.
  destruct (String.eqb_spec tok ")") as [->|Hr].
  { destruct (split_at_lparen stack) as [Hno | (above & below & -> & Hno)].
    - right. left. split; [reflexivity|]. split; [exact Hno|].
      now rewrite infix_loop_rparen, pop_to_paren_none.
    - left. split; [reflexivity|]. exists above, below.
      split; [reflexivity|]. split; [exact Hno|].
      now rewrite infix_loop_rparen, pop_to_paren_found. }
  right. right. split.
  - unfold known_token, is_operator, is_paren, Py.in_tuple. cbn [existsb].
    rewrite Hnum, Hop.
    destruct (String.eqb_spec tok "("); [contradiction|].
    destruct (String.eqb_spec tok ")"); [contradiction|]. reflexivity.
  - cbn [infix_loop]. rewrite Hnum, Hop.
    destruct (String.eqb_spec tok "("); [contradiction|].
    destruct (String.eqb_spec tok ")"); [contradiction|]. reflexivity.
Qed.

Lemma stack_entry_not_rparen (stack : list string) :
  Forall stack_entry stack -> ~ In ")" stack.
Proof.
  intros H Hin. rewrite Forall_forall in H.
  destruct (H _ Hin) as [Hop | Heq]; [|discriminate].
  now apply operator_facts in Hop.
Qed.

Lemma stack_entries_above (above below : list string) :
  Forall stack_entry (above ++ "(" :: below) ->
  ~ In "(" above ->
  Forall (fun t => is_operator t = true) above /\ Forall stack_entry below.
Proof.
  intros H Hno. apply Forall_app in H as [Ha Hb].
  inversion Hb; subst. split; [|assumption].
  rewrite Forall_forall in *. intros t Hin.
  destruct (Ha t Hin) as [Hop | ->]; [exact Hop | contradiction].
Qed.

(** The final loop succeeds exactly when no left parenthesis is left. *)
Lemma drain_cases (stack output : list string) :
  Forall stack_entry stack ->
  (~ In "(" stack /\ drain stack output = Ok (output ++ stack)%list
   /\ Forall (fun t => is_operator t = true) stack)
  \/ (In "(" stack
      /\ drain stack output = Raise (ValueError "Mismatched parentheses")).
Proof.
  intros Hst. destruct (in_dec string_dec "(" stack) as [Hin | Hno].
  - right. split; [exact Hin|]. apply drain_paren. now left.
  - left. split; [exact Hno|]. split.
    + apply drain_no_paren; [exact Hno | now apply stack_entry_not_rparen].
    + rewrite Forall_forall in *. intros t Hin.
      destruct (Hst t Hin) as [Hop | ->]; [exact Hop | contradiction].
Qed.

(** The invariants of the [for] loop, in one induction: what a successful
    run did to the output, given what the stack and output held. *)
Lemma infix_loop_invariants (tokens : list string) :
  forall output stack postfix,
    Forall stack_entry stack ->
    infix_loop tokens output stack = Ok postfix ->
    exists added,
      postfix = (output ++ added)%list
      /\ Forall (fun t => is_number t = true \/ is_operator t = true) added
      /\ filter is_number added = filter is_number tokens
      /\ (forall x,
             count_occ string_dec added x
             = count_occ string_dec (filter (fun t => negb (is_paren t)) stack) x
               + count_occ string_dec
                   (filter (fun t => negb (is_paren t)) tokens) x).
Proof.
  assert (Hops : forall l,
             Forall (fun t => is_operator t = true) l ->
             Forall (fun t => is_number t = true \/ is_operator t = true) l
             /\ filter is_number l = []
             /\ filter (fun t => negb (is_paren t)) l = l).
  { induction 1 as [|t l Ht _ (IH1 & IH2 & IH3)]; [now repeat split|].
    destruct (operator_facts t Ht) as (Hn & Hp & _).
    simpl. rewrite Hn, Hp. simpl. rewrite IH3.
    repeat split; [|exact IH2]. constructor; [now right | exact IH1]. }
  induction tokens as [|tok rest IH]; intros output stack postfix Hst Hrun.
  - cbn [infix_loop] in Hrun.
    destruct (drain_cases stack output Hst) as [(_ & Hd & Hall) | (_ & Hd)];
      rewrite Hd in Hrun; [|discriminate].
    injection Hrun as <-. exists stack.
    destruct (Hops stack Hall) as (H1 & H2 & H3).
    split; [reflexivity|]. split; [exact H1|]. split; [exact H2|].
    intros x. rewrite H3. simpl. lia.
  - destruct (infix_loop_cases tok rest output stack)
      as [(Hnum & Heq) | [(Hop & popped & remaining & -> & Hall & Heq)
         | [(-> & Heq) | [(-> & above & below & -> & Hno & Heq)
         | [(_ & _ & Heq) | (_ & Heq)]]]]];
      rewrite Heq in Hrun; try discriminate.
    + destruct (IH _ _ _ Hst Hrun) as (added & -> & H1 & H2 & H3).
      exists (tok :: added). rewrite <- app_assoc.
      split; [reflexivity|]. split; [constructor; [now left | exact H1]|].
      assert (Hp : is_paren tok = false).
      { destruct (is_paren tok) eqn:E; [|reflexivity].
        apply paren_facts in E. destruct E as (_ & E & _). congruence. }
      simpl. rewrite Hnum, Hp. simpl. split; [now rewrite H2|].
      intros x. rewrite H3. destruct (string_dec tok x); lia.
    + apply Forall_app in Hst as [_ Hrem].
      assert (Hst' : Forall stack_entry (tok :: remaining))
        by (constructor; [now left | exact Hrem]).
      destruct (IH _ _ _ Hst' Hrun) as (added & -> & H1 & H2 & H3).
      destruct (Hops popped Hall) as (P1 & P2 & P3).
      destruct (operator_facts tok Hop) as (Hn & Hp & _).
      exists (popped ++ added)%list. rewrite <- app_assoc.
      split; [reflexivity|]. split; [apply Forall_app; now split|].
      rewrite filter_app, P2. simpl. rewrite Hn.
      split; [exact H2|].
      intros x. rewrite count_occ_app, H3, filter_app, count_occ_app, P3.
      simpl. rewrite Hp. simpl. destruct (string_dec tok x); lia.
    + assert (Hst' : Forall stack_entry ("(" :: stack))
        by (constructor; [now right | exact Hst]).
      destruct (IH _ _ _ Hst' Hrun) as (added & -> & H1 & H2 & H3).
      exists added. split; [reflexivity|]. split; [exact H1|].
      split; [exact H2|]. intros x. rewrite H3. reflexivity.
    + destruct (stack_entries_above above below Hst Hno) as (Hall & Hbelow).
      destruct (IH _ _ _ Hbelow Hrun) as (added & -> & H1 & H2 & H3).
      destruct (Hops above Hall) as (P1 & P2 & P3).
      exists (above ++ added)%list. rewrite <- app_assoc.
      split; [reflexivity|]. split; [apply Forall_app; now split|].
      rewrite filter_app, P2. split; [exact H2|].
      intros x. rewrite count_occ_app, H3, filter_app, count_occ_app, P3.
      simpl. lia.
Qed.

(** X5: the postfix sequence [infix_to_postfix] returns holds numbers and
    operators only; no parenthesis reaches it. *)
Theorem postfix_has_no_parentheses :
  forall tokens postfix,
    infix_to_postfix tokens = Ok postfix ->
    Forall (fun t => is_number t = true \/ is_operator t = true) postfix
    /\ ~ In "(" postfix /\ ~ In ")" postfix.
Proof.
  intros tokens postfix H.
  destruct (infix_loop_invariants tokens [] [] postfix (Forall_nil _) H)
    as (added & -> & Hall & _).
  simpl. split; [exact Hall|].
  rewrite Forall_forall in Hall.
  split; intros Hin; destruct (Hall _ Hin) as [E | E]; vm_compute in E;
    discriminate E.
Qed.

Lemma postfix_has_no_parentheses_witness :
  Forall (fun t => is_number t = true \/ is_operator t = true)
    ["2"; "3"; "4"; "+"; "*"; "u-"]
  /\ ~ In "(" ["2"; "3"; "4"; "+"; "*"; "u-"]
  /\ ~ In ")" ["2"; "3"; "4"; "+"; "*"; "u-"].
Proof.
  apply (postfix_has_no_parentheses ["u-"; "("; "2"; "*"; "("; "3"; "+"; "4"; ")"; ")"]).
  vm_compute. reflexivity.
Defined.

(** X6: the postfix sequence is a rearrangement of the input tokens without
    the parentheses: no number or operator is lost or duplicated. *)
Theorem postfix_is_permutation :
  forall tokens postfix,
    infix_to_postfix tokens = Ok postfix ->
    Permutation postfix (filter (fun t => negb (is_paren t)) tokens).
Proof.
  intros tokens postfix H.
  destruct (infix_loop_invariants tokens [] [] postfix (Forall_nil _) H)
    as (added & -> & _ & _ & Hcount).
  simpl. apply (Permutation_count_occ string_dec). intros x.
  rewrite Hcount. reflexivity.
Qed.

Lemma postfix_is_permutation_witness :
  Permutation ["8"; "3"; "2"; "*"; "-"]
    (filter (fun t => negb (is_paren t)) ["8"; "-"; "("; "3"; "*"; "2"; ")"]).
Proof.
  apply (postfix_is_permutation ["8"; "-"; "("; "3"; "*"; "2"; ")"]).
  vm_compute. reflexivity.
Defined.

(** X7: the numbers appear in the postfix sequence in the order of the
    input; the conversion only moves operators. *)
Theorem postfix_keeps_number_order :
  forall tokens postfix,
    infix_to_postfix tokens = Ok postfix ->
    filter is_number postfix = filter is_number tokens.
Proof.
  intros tokens postfix H.
  destruct (infix_loop_invariants tokens [] [] postfix (Forall_nil _) H)
    as (added & -> & _ & Hnum & _).
  exact Hnum.
Qed.

Lemma postfix_keeps_number_order_witness :
  filter is_number ["8"; "3"; "2"; "*"; "-"]
  = filter is_number ["8"; "-"; "("; "3"; "*"; "2"; ")"].
Proof.
  apply (postfix_keeps_number_order ["8"; "-"; "("; "3"; "*"; "2"; ")"]).
  vm_compute. reflexivity.
Defined.

Lemma count_lparen_operators (l : list string) :
  Forall (fun t => is_operator t = true) l -> count_lparen l = 0.
Proof.
  unfold count_lparen. intros H. apply count_occ_not_In. intros Hin.
  rewrite Forall_forall in H. specialize (H _ Hin). discriminate H.
Qed.

Lemma count_lparen_app (l1 l2 : list string) :
  count_lparen (l1 ++ l2) = count_lparen l1 + count_lparen l2.
Proof. apply count_occ_app. Qed.

Lemma infix_loop_accepts (tokens : list string) :
  forall output stack,
    Forall stack_entry stack ->
    (exists postfix, infix_loop tokens output stack = Ok postfix)
    <-> forallb known_token tokens = true
        /\ paren_depth tokens (count_lparen stack) = Some 0.
Proof.
  induction tokens as [|tok rest IH]; intros output stack Hst.
  - cbn [infix_loop forallb paren_depth].
    destruct (drain_cases stack output Hst) as [(Hno & Hd & _) | (Hin & Hd)];
      rewrite Hd.
    + unfold count_lparen.
      rewrite (proj1 (count_occ_not_In string_dec stack "(") Hno).
      split; eauto.
    + apply (count_occ_In string_dec) in Hin. fold (count_lparen stack) in Hin.
      split; [intros (p & Hp); discriminate|].
      intros (_ & Heq). injection Heq as Heq. lia.
  - cbn [forallb paren_depth].
    destruct (infix_loop_cases tok rest output stack)
      as [(Hnum & Heq) | [(Hop & popped & remaining & -> & Hall & Heq)
         | [(-> & Heq) | [(-> & above & below & -> & Hno & Heq)
         | [(-> & Hno & Heq) | (Hbad & Heq)]]]]];
      rewrite Heq.
    + unfold known_token at 1. rewrite Hnum. cbn [orb andb].
      destruct (String.eqb_spec tok "(") as [->|_]; [discriminate Hnum|].
      destruct (String.eqb_spec tok ")") as [->|_]; [discriminate Hnum|].
      now apply IH.
    + destruct (operator_facts tok Hop) as (_ & _ & Hl & Hr).
      unfold known_token at 1. rewrite Hop, orb_true_r. cbn [orb andb].
      destruct (String.eqb_spec tok "("); [contradiction|].
      destruct (String.eqb_spec tok ")"); [contradiction|].
      apply Forall_app in Hst as [_ Hrem].
      rewrite IH by (constructor; [now left | exact Hrem]).
      rewrite count_lparen_app, (count_lparen_operators popped Hall).
      unfold count_lparen. simpl.
      destruct (string_dec tok "("); [contradiction | reflexivity].
    + change (known_token "(") with true. cbn [andb].
      change ("(" =? "(") with true. cbv iota.
      rewrite IH by (constructor; [now right | exact Hst]).
      reflexivity.
    + change (known_token ")") with true. cbn [andb].
      change (")" =? "(") with false. change (")" =? ")") with true. cbv iota.
      destruct (stack_entries_above above below Hst Hno) as (Hall & Hbelow).
      rewrite count_lparen_app, (count_lparen_operators above Hall).
      unfold count_lparen at 1. simpl. fold (count_lparen below).
      now apply IH.
    + change (")" =? "(") with false. change (")" =? ")") with true. cbv iota.
      unfold count_lparen.
      rewrite (proj1 (count_occ_not_In string_dec stack "(") Hno).
      split; [intros (p & Hp); discriminate | intros (_ & H); discriminate].
    + rewrite Hbad. cbn [andb].
      split; [intros (p & Hp); discriminate | intros (H & _); discriminate].
Qed.

(** X8: [infix_to_postfix] accepts exactly the token lists whose tokens are
    numbers, operators or parentheses and whose parentheses are balanced; it
    checks nothing else about the arrangement of operators and operands. *)
Theorem infix_to_postfix_accepts :
  forall tokens,
    (exists postfix, infix_to_postfix tokens = Ok postfix)
    <-> forallb known_token tokens = true /\ balanced tokens.
Proof.
  intros tokens. unfold infix_to_postfix, balanced.
  now rewrite (infix_loop_accepts tokens [] [] (Forall_nil _)).
Qed.

(** ** Further properties of the evaluator *)

Lemma binary_operator_cases (tok : string) :
  is_binary tok = true ->
  Py.float tok = None
  /\ (tok =? "u-") = false
  /\ (exists i, dict_get OPERATORS tok = Some i)
  /\ In tok ["+"; "-"; "*"; "/"; "^"].
Proof.
  unfold is_binary, is_operator. intros H.
  apply andb_prop in H as [Hop Hu].
  destruct (dict_get OPERATORS tok) as [i|] eqn:Hi; [|discriminate].
  split; [exact (operator_is_not_number tok i Hi)|].
  split; [now destruct (tok =? "u-")|]. split; [eauto|].
  apply is_operator_key in Hi. simpl in Hi. simpl.
  destruct Hi as [<-|[<-|[<-|[<-|[<-|[<-|[]]]]]]]; try tauto.
  discriminate Hu.
Qed.

Lemma apply_op_error math_pow (a b : float) (tok : string) (e : exception) :
  is_binary tok = true ->
  apply_op math_pow a b tok = Raise e ->
  eval_error math_pow e.
Proof.
  intros Hbin. destruct (binary_operator_cases tok Hbin) as (_ & _ & _ & Hin).
  simpl in Hin. unfold apply_op.
  destruct Hin as [<-|[<-|[<-|[<-|[<-|[]]]]]]; cbn; try discriminate.
  - destruct (b =? 0)%float; [|discriminate].
    intros H. injection H as <-. constructor.
  - intros H. now apply (eval_error_pow math_pow a b).
Qed.

(** One iteration of the [for] loop of [evaluate_postfix], by cases on the
    token and the stack. *)
Lemma eval_loop_cases math_pow (tok : string) (rest : list string)
  (stack : list float) (trace : list trace_entry) :
  (exists val,
      Py.float tok = Some val
      /\ eval_loop math_pow (tok :: rest) stack trace
         = eval_loop math_pow rest (val :: stack) (trace ++ [PUSH val]))
  \/ (Py.float tok = None /\ tok = "u-"
      /\ exists a stack',
           stack = a :: stack'
           /\ eval_loop math_pow (tok :: rest) stack trace
              = eval_loop math_pow rest ((- a)%float :: stack')
                  (trace ++ [UNARY_MINUS a (- a)%float]))
  \/ (Py.float tok = None /\ is_binary tok = true
      /\ exists b a stack' res,
           stack = b :: a :: stack'
           /\ apply_op math_pow a b tok = Ok res
           /\ eval_loop math_pow (tok :: rest) stack trace
              = eval_loop math_pow rest (res :: stack')
                  (trace ++ [BINARY a tok b res]))
  \/ (exists e,
         eval_loop math_pow (tok :: rest) stack trace = Raise e
         /\ (eval_error math_pow e
             \/ (is_number tok = false /\ is_operator tok = false
                 /\ e = ValueError ("Unknown token in evaluate_postfix: " ++ tok)))).
Proof.
  cbn [eval_loop]. unfold is_number, is_operator.
  destruct (Py.float tok) as [val|] eqn:Hnum; [left; eauto|]. right.
  destruct (dict_get OPERATORS tok) as [i|] eqn:Hop;
    [|right; right; eexists; split; [reflexivity | right; now repeat split]].
  destruct (String.eqb_spec tok "u-") as [->|Hne].
  - destruct stack as [|a stack'].
    + right. right. eexists. split; [reflexivity | left; constructor].
    + left. split; [reflexivity|]. split; [reflexivity|]. eauto.
  - right.
    assert (Hbin : is_binary tok = true).
    { unfold is_binary, is_operator. rewrite Hop.
      now destruct (String.eqb_spec tok "u-"). }
    destruct stack as [|b [|a stack']].
    + right. eexists. split; [reflexivity | left; now constructor].
    + right. eexists. split; [reflexivity | left; now constructor].
    + destruct (apply_op math_pow a b tok) as [res|e] eqn:Happ; cbn [bind].
      * left. split; [reflexivity|]. split; [exact Hbin|].
        exists b, a, stack', res. now repeat split.
      * right. exists e. split; [reflexivity|]. left.
        now apply (apply_op_error math_pow a b tok).
Qed.

(** The invariants of the evaluation loop, in one induction. *)
Lemma eval_loop_invariants math_pow (postfix : list string) :
  forall stack trace v trace',
    eval_loop math_pow postfix stack trace = Ok (v, trace') ->
    exists added,
      trace' = (trace ++ added)%list
      /\ Forall (entry_sound math_pow) added
      /\ pushed_values added = number_values postfix
      /\ List.length stack + count_numbers postfix = count_binary postfix + 1
      /\ match added with
         | [] => stack = [v]
         | _ => exists init last,
                  added = (init ++ [last])%list /\ entry_result last = v
         end.
Proof.
  unfold count_numbers, count_binary.
  induction postfix as [|tok rest IH]; intros stack trace v trace' Hrun.
  - cbn [eval_loop] in Hrun.
    destruct stack as [|x [|y stack]]; try discriminate.
    injection Hrun as <- <-. exists []. rewrite app_nil_r.
    repeat split; constructor.
  - assert (Hlast : forall (e : trace_entry) (top : float) stack0 added,
               entry_result e = top ->
               match added with
               | [] => top :: stack0 = [v]
               | _ => exists init last,
                        added = (init ++ [last])%list /\ entry_result last = v
               end ->
               exists init last,
                 e :: added = (init ++ [last])%list /\ entry_result last = v).
    { intros e top stack0 added He Hadd. destruct added as [|e' added].
      - injection Hadd as <- _. exists [], e. now split.
      - destruct Hadd as (init & last & -> & Hl).
        exists (e :: init), last. now split. }
    destruct (eval_loop_cases math_pow tok rest stack trace)
      as [(val & Hnum & Heq)
         | [(Hnum & -> & a & stack' & -> & Heq)
         | [(Hnum & Hbin & b & a & stack' & res & -> & Happ & Heq)
         | (e & Heq & _)]]];
      rewrite Heq in Hrun; try discriminate;
      destruct (IH _ _ _ _ Hrun) as (added & -> & Hs & Hp & Hc & Hl);
      eexists (_ :: added); rewrite <- app_assoc;
      (split; [reflexivity|]).
    + split; [constructor; [exact I | exact Hs]|].
      split; [simpl; now rewrite Hnum, Hp|].
      split; [|now apply (Hlast _ val stack added)].
      assert (Hb : is_binary tok = false).
      { unfold is_binary, is_operator.
        destruct (dict_get OPERATORS tok) as [i|] eqn:Hi; [|reflexivity].
        apply operator_is_not_number in Hi. congruence. }
      simpl in *. unfold is_number at 1. rewrite Hnum, Hb. simpl. lia.
    + split; [constructor; [reflexivity | exact Hs]|].
      split; [simpl; now rewrite Hp|].
      split; [|now apply (Hlast _ (- a)%float stack' added)].
      simpl in *. lia.
    + destruct (binary_operator_cases tok Hbin) as (_ & _ & _ & _).
      split; [constructor; [now split | exact Hs]|].
      split; [simpl; now rewrite Hnum, Hp|].
      split; [|now apply (Hlast _ res stack' added)].
      simpl in *. unfold is_number at 1. rewrite Hnum, Hbin. simpl. lia.
Qed.

(** X9: a postfix sequence that evaluates has one Number token more than
    binary operators. *)
Theorem evaluation_needs_one_more_number :
  forall math_pow postfix v trace,
    evaluate_postfix math_pow postfix = Ok (v, trace) ->
    count_numbers postfix = count_binary postfix + 1.
Proof.
  intros math_pow postfix v trace H.
  destruct (eval_loop_invariants math_pow postfix [] [] v trace H)
    as (added & _ & _ & _ & Hc & _).
  exact Hc.
Qed.

Lemma evaluation_needs_one_more_number_witness :
  count_numbers ["8"; "3"; "u-"; "2"; "*"; "-"]
  = count_binary ["8"; "3"; "u-"; "2"; "*"; "-"] + 1.
Proof.
  apply (evaluation_needs_one_more_number pow_ref
           ["8"; "3"; "u-"; "2"; "*"; "-"] 14%float
           [PUSH 8; PUSH 3; UNARY_MINUS 3 (-3); PUSH 2;
            BINARY (-3) "*" 2 (-6); BINARY 8 "-" (-6) 14]).
  vm_compute. reflexivity.
Defined.

(** X10: the value [evaluate_postfix] returns is the result recorded by the
    last entry of the trace it returns. *)
Theorem value_is_last_trace_result :
  forall math_pow postfix v trace,
    evaluate_postfix math_pow postfix = Ok (v, trace) ->
    exists init last,
      trace = (init ++ [last])%list /\ entry_result last = v.
Proof.
  intros math_pow postfix v trace H.
  destruct (eval_loop_invariants math_pow postfix [] [] v trace H)
    as (added & -> & _ & _ & _ & Hl).
  destruct added as [|e added]; [discriminate Hl | exact Hl].
Qed.

Lemma value_is_last_trace_result_witness :
  exists init last,
    [PUSH 8; PUSH 3; BINARY 8 "-" 3 5; UNARY_MINUS 5 (-5)]
    = (init ++ [last])%list
    /\ entry_result last = (-5)%float.
Proof.
  apply (value_is_last_trace_result pow_ref ["8"; "3"; "-"; "u-"]).
  vm_compute. reflexivity.
Defined.

(** X11: the trace of a successful evaluation is a faithful record: its
    [PUSH] entries are the values of the Number tokens, in order; each unary
    entry records the negation of its operand; each binary entry records
    operands, a binary operator and the value [apply_op] gives for them. *)
Theorem trace_is_faithful :
  forall math_pow postfix v trace,
    evaluate_postfix math_pow postfix = Ok (v, trace) ->
    pushed_values trace = number_values postfix
    /\ Forall (entry_sound math_pow) trace.
Proof.
  intros math_pow postfix v trace H.
  destruct (eval_loop_invariants math_pow postfix [] [] v trace H)
    as (added & -> & Hs & Hp & _).
  now split.
Qed.

Lemma trace_is_faithful_witness :
  pushed_values [PUSH 1; PUSH 4; BINARY 1 "/" 4 0.25; UNARY_MINUS 0.25 (-0.25)]
  = number_values ["1"; "4"; "/"; "u-"]
  /\ Forall (entry_sound pow_ref)
       [PUSH 1; PUSH 4; BINARY 1 "/" 4 0.25; UNARY_MINUS 0.25 (-0.25)].
Proof.
  apply (trace_is_faithful pow_ref ["1"; "4"; "/"; "u-"] (-0.25)%float).
  vm_compute. reflexivity.
Defined.

(** ** The errors of the pipeline *)

Lemma contains_append_r (a b : string) (ch : ascii) :
  Py.contains b ch = true -> Py.contains (a ++ b) ch = true.
Proof.
  intros H. induction a as [|d a IH]; simpl; [exact H|].
  now rewrite IH, orb_true_r.
Qed.

Lemma tokenize_loop_errors math_pow (s : string) (tokens : list string) :
  forall e,
    tokenize_loop s tokens = Raise e -> pipeline_error math_pow s e.
Proof.
  assert (Hmono : forall (s s' : string) e,
             (forall ch, Py.contains s' ch = true -> Py.contains s ch = true) ->
             pipeline_error math_pow s' e -> pipeline_error math_pow s e).
  { intros s0 s' e Hsub He.
    destruct He;
      [apply error_literal | apply error_character | apply error_parentheses
      | apply error_not_a_number | apply error_evaluation]; auto. }
  funelim (tokenize_loop s tokens); intros e Hrun.
  - discriminate.
  - clear Heqcall.
    assert (Hrest : forall e', pipeline_error math_pow rest e' ->
                               pipeline_error math_pow (String ch rest) e').
    { intros e'. apply Hmono. intros c Hc. simpl. now rewrite Hc, orb_true_r. }
    destruct (char_cases ch) as [Hsp | [Hnum | [Hst | Hbad]]].
    + rewrite Hsp in Hrun. apply Hrest. now apply H.
    + rewrite (num_char_not_space ch Hnum), Hnum in Hrun.
      destruct (scan_number_spec rest (String ch "")) as (tail & Hfst & Hrest' & Htail & _).
      destruct (Nat.ltb_spec 1 (Py.count "." (fst (scan_number rest (String ch "")))))
        as [Hdots|Hdots].
      * injection Hrun as <-. apply error_literal; [|exact Hdots].
        rewrite Hfst. simpl. now rewrite Hnum.
      * apply Hrest. apply (Hmono _ (snd (scan_number rest (String ch "")))).
        -- intros c Hc. rewrite Hrest'. now apply contains_append_r.
        -- now apply H0.
    + destruct (structural_char ch Hst) as (_ & Hsp & Hnum).
      rewrite Hsp, Hnum, Hst in Hrun. apply Hrest.
      destruct ((ch =? "-")%char && unary_context tokens);
        [now apply H1 | now apply H2].
    + pose proof Hbad as Hbad'. unfold allowed_char in Hbad.
      apply orb_false_elim in Hbad as [Hbad Hst].
      apply orb_false_elim in Hbad as [Hsp Hnum].
      rewrite Hsp, Hnum, Hst in Hrun. injection Hrun as <-.
      apply error_character; [|exact Hbad'].
      simpl. now rewrite Ascii.eqb_refl.
Qed.

Lemma infix_loop_errors (tokens : list string) :
  forall output stack e,
    infix_loop tokens output stack = Raise e ->
    e = ValueError "Mismatched parentheses"
    \/ exists tok,
         In tok tokens /\ known_token tok = false
         /\ e = ValueError ("Unknown token in infix_to_postfix: " ++ tok).
Proof.
  induction tokens as [|tok rest IH]; intros output stack e Hrun.
  - left. cbn [infix_loop] in Hrun. revert output Hrun.
    induction stack as [|top stack IHs]; intros output Hrun;
      cbn [drain] in Hrun; [discriminate|].
    destruct (Py.in_tuple top ["("; ")"]); [now injection Hrun as <-|].
    now apply (IHs (output ++ [top])%list).
  - assert (Hnext : forall output' stack',
               infix_loop rest output' stack' = Raise e ->
               e = ValueError "Mismatched parentheses"
               \/ exists tok0,
                    In tok0 (tok :: rest) /\ known_token tok0 = false
                    /\ e = ValueError ("Unknown token in infix_to_postfix: " ++ tok0)).
    { intros output' stack' H.
      destruct (IH _ _ _ H) as [-> | (tok0 & Hin & Hk & ->)]; [now left|].
      right. exists tok0. split; [now right | now split]. }
    destruct (infix_loop_cases tok rest output stack)
      as [(_ & Heq) | [(_ & popped & remaining & _ & _ & Heq)
         | [(_ & Heq) | [(_ & above & below & _ & _ & Heq)
         | [(_ & _ & Heq) | (Hbad & Heq)]]]]];
      rewrite Heq in Hrun; try (now apply Hnext in Hrun).
    + left. now injection Hrun as <-.
    + right. exists tok. split; [now left|]. split; [exact Hbad|].
      now injection Hrun as <-.
Qed.

Lemma eval_loop_errors math_pow (postfix : list string) :
  forall stack trace e,
    Forall (fun t => is_number t = true \/ is_operator t = true) postfix ->
    eval_loop math_pow postfix stack trace = Raise e ->
    eval_error math_pow e.
Proof.
  induction postfix as [|tok rest IH]; intros stack trace e Hall Hrun.
  - cbn [eval_loop] in Hrun.
    destruct stack as [|x [|y stack]]; try discriminate;
      injection Hrun as <-; constructor.
  - inversion Hall as [|? ? Htok Hrest]; subst.
    destruct (eval_loop_cases math_pow tok rest stack trace)
      as [(val & _ & Heq)
         | [(_ & _ & a & stack' & _ & Heq)
         | [(_ & _ & b & a & stack' & res & _ & _ & Heq)
         | (e' & Heq & Herr)]]];
      rewrite Heq in Hrun; try (now apply IH in Hrun).
    injection Hrun as <-.
    destruct Herr as [Herr | (Hn & Ho & _)]; [exact Herr|].
    destruct Htok; congruence.
Qed.

(** X12: every error of [evaluate_expression] is one of: a literal with two
    dots or more; a character of the text outside the alphabet; mismatched
    parentheses; a run of digits and dots that [float] refuses; too few
    operands for an operator; a stack that does not end with one value; a
    division by zero; or an error raised by [math.pow].  In particular the
    ['Unknown token in evaluate_postfix'] and ['Unsupported operator'] errors
    of the source cannot come out of the pipeline. *)
Theorem evaluate_expression_errors :
  forall math_pow text e,
    evaluate_expression math_pow text = Raise e ->
    pipeline_error math_pow text e.
Proof.
  intros math_pow text e. unfold evaluate_expression.
  destruct (tokenize text) as [toks|e1] eqn:Htok; cbn [bind].
  2:{ intros H. injection H as <-.
      now apply (tokenize_loop_errors math_pow text []). }
  destruct (infix_to_postfix toks) as [postfix|e2] eqn:Hpost; cbn [bind].
  2:{ intros H. injection H as <-.
      destruct (infix_loop_errors toks [] [] e2 Hpost)
        as [-> | (tok & Hin & Hk & ->)]; [constructor|].
      pose proof (tokenize_token_shapes_aux text toks Htok) as Hshape.
      rewrite Forall_forall in Hshape.
      unfold known_token in Hk.
      apply orb_false_elim in Hk as [Hk Hpar].
      apply orb_false_elim in Hk as [Hnum Hop].
      destruct (Hshape tok Hin) as [-> | [Hst | (H1 & H2 & _)]].
      - discriminate Hop.
      - simpl in Hst.
        destruct Hst as [<-|[<-|[<-|[<-|[<-|[<-|[<-|[]]]]]]]];
          discriminate Hop || discriminate Hpar.
      - now apply error_not_a_number. }
  destruct (evaluate_postfix math_pow postfix) as [[v trace]|e3] eqn:Heval;
    cbn [bind]; [discriminate|].
  intros H. injection H as <-. apply error_evaluation.
  destruct (infix_loop_invariants toks [] [] postfix (Forall_nil _) Hpost)
    as (added & -> & Hall & _).
  now apply (eval_loop_errors math_pow added [] []).
Qed.

Lemma evaluate_expression_errors_witness :
  pipeline_error pow_ref "2*(3+.)"
    (ValueError "Unknown token in infix_to_postfix: .").
Proof.
  apply (evaluate_expression_errors pow_ref "2*(3+.)").
  vm_compute. reflexivity.
Defined.

(** ** Which runs of digits and dots are numbers *)

Ltac by_char c :=
  destruct c as [[] [] [] [] [] [] [] []].

Lemma num_char_facts (c : ascii) :
  is_num_char c = true ->
  Py.to_ascii_space c = c
  /\ (c =? "_")%char = false
  /\ Py.is_c_space c = false
  /\ ((c =? "e") || (c =? "E"))%char = false
  /\ (Py.is_ascii_digit c = false -> c <> "."%char -> digit_or_dot c = false).
Proof.
  by_char c; vm_compute; intros H; try discriminate H;
    repeat split; congruence.
Qed.

Lemma run_is_kept (t : string) :
  all_chars is_num_char t = true ->
  Py.map_str Py.to_ascii_space t = t
  /\ (forall prev, (prev =? "_")%char = false ->
                   Py.strip_underscores t prev = Some t)
  /\ Py.lstrip t = t /\ Py.rstrip t = t.
Proof.
  induction t as [|c t IH]; intros H; [now repeat split; intros; simpl; rewrite ?H0|].
  simpl in H. apply andb_prop in H as [Hc Ht].
  destruct (IH Ht) as (I1 & I2 & I3 & I4).
  destruct (num_char_facts c Hc) as (F1 & F2 & F3 & _).
  split; [simpl; now rewrite F1, I1|].
  split; [intros prev Hp; simpl; now rewrite F2, Hp, (I2 c F2)|].
  split; [simpl; now rewrite F3|].
  simpl. rewrite I4, F3. now destruct t.
Qed.

Lemma read_sign_run (t : string) :
  all_chars is_num_char t = true -> Py.read_sign t = (false, t).
Proof.
  destruct t as [|c t]; [reflexivity|]. simpl all_chars. intros H.
  apply andb_prop in H as [Hc _]. revert Hc.
  by_char c; vm_compute; intros H; try discriminate H; reflexivity.
Qed.

Lemma parse_inf_or_nan_run (t : string) :
  all_chars is_num_char t = true -> Py.parse_inf_or_nan t = None.
Proof.
  intros H. unfold Py.parse_inf_or_nan. rewrite (read_sign_run t H).
  destruct t as [|c t]; [reflexivity|]. simpl in H.
  apply andb_prop in H as [Hc _]. revert Hc.
  by_char c; vm_compute; intros H; try discriminate H; reflexivity.
Qed.

Lemma digits_split (s : string) :
  exists d rest,
    s = d ++ rest
    /\ all_chars Py.is_ascii_digit d = true
    /\ starts_with_ascii_digit rest = false.
Proof.
  induction s as [|c s (d & rest & -> & Hd & Hr)]; [now exists "", ""|].
  destruct (Py.is_ascii_digit c) eqn:Hc.
  - exists (String c d), rest. simpl. now rewrite Hc.
  - exists "", (String c (d ++ rest)). now simpl.
Qed.

Lemma read_digits_run (d rest : string) :
  all_chars Py.is_ascii_digit d = true ->
  starts_with_ascii_digit rest = false ->
  forall acc n, exists acc',
    Py.read_digits (d ++ rest) acc n
    = (acc', (n + Z.of_nat (String.length d))%Z, rest).
Proof.
  intros Hd Hr. induction d as [|c d IH]; intros acc n.
  - exists acc. rewrite Z.add_0_r. destruct rest as [|c rest]; [reflexivity|].
    simpl in *. now rewrite Hr.
  - simpl in Hd. apply andb_prop in Hd as [Hc Hd].
    destruct (IH Hd (10 * acc + (Z.of_N (Py.code c) - 48))%Z (n + 1)%Z)
      as (acc' & Heq).
    exists acc'. cbn [append Py.read_digits String.length]. rewrite Hc, Heq.
    f_equal. f_equal. lia.
Qed.

Lemma count_append (c : ascii) (a b : string) :
  Py.count c (a ++ b) = Py.count c a + Py.count c b.
Proof. induction a as [|d a IH]; simpl; [reflexivity | rewrite IH; lia]. Qed.

Lemma any_char_append (p : ascii -> bool) (a b : string) :
  any_char p (a ++ b) = any_char p a || any_char p b.
Proof.
  induction a as [|d a IH]; simpl; [reflexivity|]. now rewrite IH, orb_assoc.
Qed.

Lemma digits_facts (d : string) :
  all_chars Py.is_ascii_digit d = true ->
  all_chars digit_or_dot d = true
  /\ any_char Py.is_ascii_digit d = negb (Z.of_nat (String.length d) =? 0)%Z.
Proof.
  intros H. split.
  - apply (all_chars_impl Py.is_ascii_digit); [|exact H].
    intros c Hc. unfold digit_or_dot. now rewrite Hc.
  - destruct d as [|c d]; [reflexivity|]. simpl in H.
    apply andb_prop in H as [Hc _].
    cbn [any_char String.length]. rewrite Hc. reflexivity.
Qed.

Lemma parse_decimal_run (t : string) :
  all_chars is_num_char t = true ->
  Py.count "." t <= 1 ->
  accepted (Py.parse_decimal t) = plain_literal t.
Proof.
  intros Hnum Hdots. unfold Py.parse_decimal.
  rewrite (read_sign_run t Hnum).
  destruct (digits_split t) as (d1 & s2 & -> & Hd1 & Hs2).
  destruct (read_digits_run d1 s2 Hd1 Hs2 0%Z 0%Z) as (ip & ->).
  rewrite Z.add_0_l.
  destruct (digits_facts d1 Hd1) as (A1 & B1).
  rewrite all_chars_append in Hnum. apply andb_prop in Hnum as [_ Hnum2].
  unfold plain_literal. rewrite all_chars_append, any_char_append, A1, B1.
  cbn [andb].
  destruct s2 as [|c r].
  - cbn. rewrite Z.add_0_r, orb_false_r.
    now destruct (Z.of_nat (String.length d1) =? 0)%Z.
  - simpl in Hs2, Hnum2. apply andb_prop in Hnum2 as [Hc Hr].
    destruct (Ascii.eqb_spec c ".") as [->|Hne].
    + destruct (digits_split r) as (d2 & s3 & -> & Hd2 & Hs3).
      destruct (read_digits_run d2 s3 Hd2 Hs3 ip 0%Z) as (digits & ->).
      rewrite Z.add_0_l.
      destruct (digits_facts d2 Hd2) as (A2 & B2).
      rewrite all_chars_append in Hr. apply andb_prop in Hr as [_ Hr3].
      cbn [all_chars any_char]. change (digit_or_dot ".") with true.
      change (Py.is_ascii_digit ".") with false.
      rewrite all_chars_append, any_char_append, A2, B2. cbn [andb orb].
      destruct s3 as [|c' r'].
      * cbn [all_chars any_char]. rewrite orb_false_r.
        pose proof (Nat2Z.is_nonneg (String.length d1)).
        pose proof (Nat2Z.is_nonneg (String.length d2)).
        destruct (Z.eqb_spec (Z.of_nat (String.length d1)
                              + Z.of_nat (String.length d2)) 0),
                 (Z.eqb_spec (Z.of_nat (String.length d1)) 0),
                 (Z.eqb_spec (Z.of_nat (String.length d2)) 0);
          try lia; reflexivity.
      * simpl in Hs3, Hr3. apply andb_prop in Hr3 as [Hc' _].
        destruct (num_char_facts c' Hc') as (_ & _ & _ & He & Hdd).
        rewrite He.
        assert (Hbad : digit_or_dot c' = false).
        { apply Hdd; [exact Hs3|]. intros ->.
          rewrite !count_append in Hdots. simpl in Hdots.
          rewrite !count_append in Hdots. simpl in Hdots. lia. }
        cbn [all_chars]. rewrite Hbad. cbn [andb].
        destruct (Z.of_nat (String.length d1) + Z.of_nat (String.length d2) =? 0)%Z;
          reflexivity.
    + destruct (num_char_facts c Hc) as (_ & _ & _ & He & Hdd).
      specialize (Hdd Hs2 Hne).
      cbn [all_chars]. rewrite Hdd. cbn [andb].
      by_char c;
        try (vm_compute in Hc; discriminate Hc);
        try (vm_compute in Hs2; discriminate Hs2);
        try (exfalso; apply Hne; reflexivity);
        cbv beta iota; rewrite He;
        destruct (Z.of_nat (String.length d1) + 0 =? 0)%Z; reflexivity.
Qed.

(** A character of this embedding is one of the 256 code points below
    U+0100; among them [str.isdigit] holds of the ASCII digits and of the
    three superscripts only.  On the runs over these characters, [is_number]
    is decided by the shape of the run.  The lemma is used through its two
    consequences below, which speak of ASCII runs and of runs with a
    superscript and so do not depend on the range of the characters. *)
Lemma is_number_latin1_run (tok : string) :
  all_chars is_num_char tok = true ->
  Py.count "." tok <= 1 ->
  is_number tok = plain_literal tok.
Proof.
  intros Hnum Hdots. unfold is_number, Py.float.
  destruct (run_is_kept tok Hnum) as (K1 & K2 & K3 & K4).
  rewrite K1, (K2 "000"%char eq_refl). cbv zeta. rewrite K3, K4.
  rewrite <- (parse_decimal_run tok Hnum Hdots).
  destruct (Py.parse_decimal tok); [reflexivity|].
  now rewrite (parse_inf_or_nan_run tok Hnum).
Qed.

Lemma digit_or_dot_is_num_char (c : ascii) :
  digit_or_dot c = true -> is_num_char c = true.
Proof. by_char c; vm_compute; congruence. Qed.

Lemma superscript_is_not_plain (c : ascii) :
  superscript_digit c = true -> digit_or_dot c = false.
Proof. by_char c; vm_compute; congruence. Qed.

Lemma superscript_run_is_not_plain (tok : string) :
  any_char superscript_digit tok = true -> all_chars digit_or_dot tok = false.
Proof.
  induction tok as [|c tok IH]; simpl; [discriminate|].
  intros H. apply orb_prop in H as [H|H].
  - now rewrite (superscript_is_not_plain c H).
  - rewrite (IH H). apply andb_false_r.
Qed.

(** X13: which of the runs that [tokenize] hands on are numbers.  Take a
    run of [str.isdigit] characters and dots with at most one dot.  If its
    characters are ASCII digits and dots, [is_number] is true exactly when
    the run holds a digit, so the run ["."] is refused and ["12"], ["1."],
    [".5"] and ["1.5"] are numbers.  If the run contains one of the
    superscript digits two, three and one, which [str.isdigit] accepts,
    [is_number] is false. *)
Theorem is_number_on_ascii_runs_and_superscripts :
  forall tok,
    all_chars is_num_char tok = true ->
    Py.count "." tok <= 1 ->
    (all_chars digit_or_dot tok = true ->
     is_number tok = any_char Py.is_ascii_digit tok)
    /\ (any_char superscript_digit tok = true -> is_number tok = false).
Proof.
  intros tok Hnum Hdots.
  rewrite (is_number_latin1_run tok Hnum Hdots). unfold plain_literal.
  split; intros H.
  - now rewrite H.
  - now rewrite (superscript_run_is_not_plain tok H).
Qed.

Lemma is_number_on_ascii_runs_and_superscripts_witness :
  is_number "3.14" = true
  /\ is_number "." = false
  /\ is_number ("3" ++ superscript_two) = false.
Proof.
  split; [|split].
  - apply (proj1 (is_number_on_ascii_runs_and_superscripts "3.14"
                    eq_refl (le_n 1)) eq_refl).
  - apply (proj1 (is_number_on_ascii_runs_and_superscripts "."
                    eq_refl (le_n 1)) eq_refl).
  - apply (proj2 (is_number_on_ascii_runs_and_superscripts
                    ("3" ++ superscript_two) eq_refl (le_S 0 0 (le_n 0)))
             eq_refl).
Defined.

(** ** Fully parenthesised expressions *)

Lemma infix_loop_number (tok : string) (rest output stack : list string) :
  is_number tok = true ->
  infix_loop (tok :: rest) output stack
  = infix_loop rest (output ++ [tok]) stack.
Proof. intros H. cbn [infix_loop]. now rewrite H. Qed.

Lemma infix_loop_lparen (rest output stack : list string) :
  infix_loop ("(" :: rest) output stack = infix_loop rest output ("(" :: stack).
Proof. reflexivity. Qed.

Lemma infix_loop_operator_on_paren (op : string) (rest output stack : list string) :
  is_operator op = true ->
  infix_loop (op :: rest) output ("(" :: stack)
  = infix_loop rest output (op :: "(" :: stack).
Proof.
  unfold is_operator. destruct (dict_get OPERATORS op) as [i1|] eqn:Hop;
    [intros _ | discriminate].
  now rewrite (infix_loop_operator op i1 _ _ _ Hop).
Qed.

Lemma infix_loop_tree (e : expr) :
  well_formed e ->
  forall rest output stack,
    infix_loop (infix_tokens e ++ rest) output stack
    = infix_loop rest (output ++ postfix_tokens e) stack.
Proof.
  induction e as [tok | e IH | op l IHl r IHr]; intros Hwf rest output stack.
  - now apply infix_loop_number.
  - cbn [infix_tokens postfix_tokens app].
    rewrite infix_loop_lparen, infix_loop_operator_on_paren by reflexivity.
    rewrite <- app_assoc, (IH Hwf). cbn [app].
    rewrite infix_loop_rparen.
    rewrite (pop_to_paren_found ["u-"] stack).
    + now rewrite app_assoc.
    + intros [H|[]]. discriminate H.
  - destruct Hwf as (Hop & Hl & Hr).
    assert (Hop' : is_operator op = true).
    { unfold is_binary in Hop. now apply andb_prop in Hop as [Hop _]. }
    cbn [infix_tokens postfix_tokens app].
    rewrite infix_loop_lparen.
    rewrite <- !app_assoc, (IHl Hl). cbn [app].
    rewrite infix_loop_operator_on_paren by exact Hop'.
    rewrite <- app_assoc, (IHr Hr). cbn [app].
    rewrite infix_loop_rparen.
    rewrite (pop_to_paren_found [op] stack).
    + now rewrite <- !app_assoc.
    + intros [H|[]]. subst op. discriminate Hop'.
Qed.

(** X14: on the fully parenthesised tokens of an expression tree,
    [infix_to_postfix] returns the postfix tokens of the tree. *)
Theorem infix_to_postfix_on_trees :
  forall e,
    well_formed e ->
    infix_to_postfix (infix_tokens e) = Ok (postfix_tokens e).
Proof.
  intros e Hwf. unfold infix_to_postfix.
  rewrite <- (app_nil_r (infix_tokens e)), (infix_loop_tree e Hwf).
  reflexivity.
Qed.

Lemma infix_to_postfix_on_trees_witness :
  infix_to_postfix
    (infix_tokens (Bin "-" (Num "8") (Neg (Bin "^" (Num "3") (Num "2")))))
  = Ok (postfix_tokens (Bin "-" (Num "8") (Neg (Bin "^" (Num "3") (Num "2"))))).
Proof.
  apply (infix_to_postfix_on_trees
           (Bin "-" (Num "8") (Neg (Bin "^" (Num "3") (Num "2"))))).
  vm_compute. tauto.
Defined.

Lemma eval_loop_tree math_pow (e : expr) :
  well_formed e ->
  forall rest stack trace,
    match tree_value math_pow e with
    | Ok v =>
        exists added,
          eval_loop math_pow (postfix_tokens e ++ rest) stack trace
          = eval_loop math_pow rest (v :: stack) (trace ++ added)
    | Raise err =>
        eval_loop math_pow (postfix_tokens e ++ rest) stack trace = Raise err
    end.
Proof.
  induction e as [tok | e IH | op l IHl r IHr]; intros Hwf rest stack trace;
    cbn [tree_value postfix_tokens].
  - cbn [well_formed] in Hwf. unfold is_number in Hwf.
    cbn [app eval_loop]. destruct (Py.float tok) as [val|]; [|discriminate].
    now exists [PUSH val].
  - specialize (IH Hwf (["u-"] ++ rest)%list stack trace).
    rewrite <- app_assoc.
    destruct (tree_value math_pow e) as [a|err]; cbn [bind]; [|exact IH].
    destruct IH as (added & ->).
    exists (added ++ [UNARY_MINUS a (- a)%float])%list.
    now rewrite app_assoc.
  - destruct Hwf as (Hop & Hl & Hr).
    destruct (binary_operator_cases op Hop) as (Hnum & Hu & (i & Hi) & _).
    specialize (IHl Hl (postfix_tokens r ++ [op] ++ rest)%list stack trace).
    rewrite <- !app_assoc.
    destruct (tree_value math_pow l) as [a|err]; cbn [bind]; [|exact IHl].
    destruct IHl as (added1 & ->).
    specialize (IHr Hr ([op] ++ rest)%list (a :: stack) (trace ++ added1)%list).
    destruct (tree_value math_pow r) as [b|err]; cbn [bind]; [|exact IHr].
    destruct IHr as (added2 & ->).
    cbn [app eval_loop]. rewrite Hnum, Hi, Hu.
    destruct (apply_op math_pow a b op) as [res|err]; cbn [bind]; [|reflexivity].
    exists (added1 ++ added2 ++ [BINARY a op b res])%list.
    now rewrite !app_assoc.
Qed.

(** X15: on the postfix tokens of an expression tree, [evaluate_postfix]
    returns the value of the tree, computed operands first and from left to
    right, and fails with the tree's error when that computation fails. *)
Theorem evaluate_postfix_on_trees :
  forall math_pow e,
    well_formed e ->
    match tree_value math_pow e with
    | Ok v =>
        exists trace,
          evaluate_postfix math_pow (postfix_tokens e) = Ok (v, trace)
    | Raise err => evaluate_postfix math_pow (postfix_tokens e) = Raise err
    end.
Proof.
  intros math_pow e Hwf. unfold evaluate_postfix.
  pose proof (eval_loop_tree math_pow e Hwf [] [] []) as H.
  rewrite app_nil_r in H.
  destruct (tree_value math_pow e) as [v|err]; [|exact H].
  destruct H as (added & ->). now exists added.
Qed.

Lemma evaluate_postfix_on_trees_witness :
  exists trace,
    evaluate_postfix pow_ref
      (postfix_tokens (Bin "-" (Num "8") (Neg (Bin "^" (Num "3") (Num "2")))))
    = Ok (17%float, trace).
Proof.
  apply (evaluate_postfix_on_trees pow_ref
           (Bin "-" (Num "8") (Neg (Bin "^" (Num "3") (Num "2"))))).
  vm_compute. tauto.
Defined.

Lemma plain_literal_run (tok : string) :
  plain_literal tok = true ->
  exists c t,
    tok = String c t /\ is_num_char c = true
    /\ all_chars is_num_char t = true.
Proof.
  unfold plain_literal. intros H. apply andb_prop in H as [Hall Hany].
  assert (Hnum : all_chars is_num_char tok = true).
  { apply (all_chars_impl digit_or_dot); [|exact Hall].
    intros c. unfold digit_or_dot, is_num_char, Py.isdigit, Py.is_ascii_digit.
    intros Hc. apply orb_prop in Hc as [Hc | ->]; [|apply orb_true_r].
    now rewrite Hc. }
  destruct tok as [|c t]; [discriminate Hany|].
  simpl in Hnum. apply andb_prop in Hnum as [Hc Ht]. now exists c, t.
Qed.

Lemma num_token_not_unary_context (tokens : list string) (c : ascii) (t : string) :
  is_num_char c = true ->
  unary_context (tokens ++ [String c t]) = false.
Proof.
  intros Hc. unfold unary_context. rewrite last_or_None_snoc.
  revert Hc. destruct c as [[] [] [] [] [] [] [] []]; vm_compute;
    intros H; try discriminate H; reflexivity.
Qed.

Lemma tokenize_loop_literal (tok rest : string) (tokens : list string) :
  plain_literal tok = true ->
  Py.count "." tok <= 1 ->
  starts_with_num_char rest = false ->
  tokenize_loop (tok ++ rest) tokens = tokenize_loop rest (tokens ++ [tok])
  /\ unary_context (tokens ++ [tok]) = false.
Proof.
  intros Hlit Hdots Hrest.
  destruct (plain_literal_run tok Hlit) as (c & t & -> & Hc & Ht).
  split; [|now apply num_token_not_unary_context].
  cbn [append]. rewrite (tokenize_loop_number c _ _ Hc). cbv zeta.
  rewrite (scan_number_run t rest _ Ht), (scan_number_stop rest _ Hrest).
  cbn [fst snd append].
  destruct (Nat.ltb_spec 1 (Py.count "." (String c t))); [lia | reflexivity].
Qed.

Lemma tokenize_loop_close (rest : string) (tokens : list string) :
  tokenize_loop (String ")" rest) tokens = tokenize_loop rest (tokens ++ [")"])
  /\ unary_context (tokens ++ [")"]) = false.
Proof.
  split.
  - now rewrite tokenize_loop_structural.
  - unfold unary_context. now rewrite last_or_None_snoc.
Qed.

Lemma tokenize_loop_open (rest : string) (tokens : list string) :
  tokenize_loop (String "(" rest) tokens = tokenize_loop rest (tokens ++ ["("])
  /\ unary_context (tokens ++ ["("]) = true.
Proof.
  split.
  - now rewrite tokenize_loop_structural.
  - unfold unary_context. now rewrite last_or_None_snoc.
Qed.

Lemma tokenize_loop_binary (op rest : string) (tokens : list string) :
  is_binary op = true ->
  unary_context tokens = false ->
  tokenize_loop (op ++ rest) tokens = tokenize_loop rest (tokens ++ [op])
  /\ starts_with_num_char (op ++ rest) = false.
Proof.
  intros Hop Hctx.
  destruct (binary_operator_cases op Hop) as (_ & _ & _ & Hin). simpl in Hin.
  destruct Hin as [<-|[<-|[<-|[<-|[<-|[]]]]]]; (split; [|reflexivity]);
    cbn [append]; rewrite ?tokenize_loop_minus, ?Hctx;
    try reflexivity; now rewrite tokenize_loop_structural.
Qed.

Lemma tokenize_loop_tree (e : expr) :
  well_formed e -> literal_leaves e ->
  forall rest tokens,
    starts_with_num_char rest = false ->
    tokenize_loop (infix_text e ++ rest) tokens
    = tokenize_loop rest (tokens ++ infix_tokens e)
    /\ unary_context (tokens ++ infix_tokens e) = false.
Proof.
  induction e as [tok | e IH | op l IHl r IHr];
    intros Hwf Hlit rest tokens Hrest.
  - destruct Hlit as (Hlit & Hdots). now apply tokenize_loop_literal.
  - cbn [infix_text infix_tokens app]. rewrite !append_assoc. cbn [append].
    destruct (tokenize_loop_open (String "-" (infix_text e ++ String ")" rest)) tokens)
      as (-> & Hctx).
    rewrite tokenize_loop_minus, Hctx.
    destruct (IH Hwf Hlit (String ")" rest) ((tokens ++ ["("]) ++ ["u-"])%list eq_refl)
      as (-> & _).
    cbn [append].
    destruct (tokenize_loop_close rest
                (((tokens ++ ["("]) ++ ["u-"]) ++ infix_tokens e)%list)
      as (-> & Hc).
    replace (tokens ++ "(" :: "u-" :: infix_tokens e ++ [")"])%list
      with ((((tokens ++ ["("]) ++ ["u-"]) ++ infix_tokens e) ++ [")"])%list
      by (rewrite <- !app_assoc; reflexivity).
    now split.
  - destruct Hwf as (Hop & Hwl & Hwr). destruct Hlit as (Hll & Hlr).
    cbn [infix_text infix_tokens app]. rewrite !append_assoc. cbn [append].
    destruct (tokenize_loop_open
                (infix_text l ++ op ++ infix_text r ++ String ")" rest) tokens)
      as (-> & _).
    assert (Hstart : starts_with_num_char (op ++ infix_text r ++ String ")" rest) = false).
    { destruct (binary_operator_cases op Hop) as (_ & _ & _ & Hin). simpl in Hin.
      destruct Hin as [<-|[<-|[<-|[<-|[<-|[]]]]]]; reflexivity. }
    destruct (IHl Hwl Hll _ (tokens ++ ["("])%list Hstart) as (-> & Hctx).
    destruct (tokenize_loop_binary op (infix_text r ++ String ")" rest) _ Hop Hctx)
      as (-> & _).
    destruct (IHr Hwr Hlr (String ")" rest)
                (((tokens ++ ["("]) ++ infix_tokens l) ++ [op])%list eq_refl)
      as (-> & _).
    cbn [append].
    destruct (tokenize_loop_close rest
                ((((tokens ++ ["("]) ++ infix_tokens l) ++ [op])
                   ++ infix_tokens r)%list)
      as (-> & Hc).
    replace (tokens ++ "(" :: infix_tokens l ++ op :: infix_tokens r ++ [")"])%list
      with (((((tokens ++ ["("]) ++ infix_tokens l) ++ [op])
               ++ infix_tokens r) ++ [")"])%list
      by (rewrite <- !app_assoc; reflexivity).
    now split.
Qed.


(** X16: for a fully parenthesised expression whose numbers are plain
    decimal literals, [evaluate_expression] on its text returns its tokens,
    its postfix tokens and its value, and fails with the tree's error when
    the computation fails: the three stages compose into the evaluation of
    the expression. *)
Theorem evaluate_expression_on_trees :
  forall math_pow e,
    well_formed e -> literal_leaves e ->
    match tree_value math_pow e with
    | Ok v =>
        exists trace,
          evaluate_expression math_pow (infix_text e)
          = Ok (v, infix_tokens e, postfix_tokens e, trace)
    | Raise err => evaluate_expression math_pow (infix_text e) = Raise err
    end.
Proof.
  intros math_pow e Hwf Hlit.
  assert (Htok : tokenize (infix_text e) = Ok (infix_tokens e)).
  { unfold tokenize.
    destruct (tokenize_loop_tree e Hwf Hlit "" [] eq_refl) as (H & _).
    rewrite append_empty in H. rewrite H. apply tokenize_loop_nil. }
  assert (Hpost : infix_to_postfix (infix_tokens e) = Ok (postfix_tokens e)).
  { unfold infix_to_postfix.
    rewrite <- (app_nil_r (infix_tokens e)), (infix_loop_tree e Hwf).
    reflexivity. }
  unfold evaluate_expression. rewrite Htok. cbn [bind]. rewrite Hpost.
  cbn [bind]. unfold evaluate_postfix.
  pose proof (eval_loop_tree math_pow e Hwf [] [] []) as H.
  rewrite app_nil_r in H.
  destruct (tree_value math_pow e) as [v|err].
  - destruct H as (added & ->). now exists added.
  - now rewrite H.
Qed.

Lemma evaluate_expression_on_trees_witness :
  exists trace,
    evaluate_expression pow_ref "((1.5+2)*(-4))"
    = Ok ((-14)%float,
          ["("; "("; "1.5"; "+"; "2"; ")"; "*"; "("; "u-"; "4"; ")"; ")"],
          ["1.5"; "2"; "+"; "4"; "u-"; "*"], trace).
Proof.
  apply (evaluate_expression_on_trees pow_ref
           (Bin "*" (Bin "+" (Num "1.5") (Num "2")) (Neg (Num "4")))).
  - vm_compute. tauto.
  - simpl. repeat split; solve [reflexivity | lia].
Defined.

(** ** Chains of operators without parentheses *)

Lemma operator_class_is_operator (a : string) (p : Z) (op : string) :
  operator_class a p op -> is_operator op = true.
Proof. intros (i & Hi & _). unfold is_operator. now rewrite Hi. Qed.

Lemma postfix_left_tree (pairs : list (string * string)) :
  forall t,
    postfix_tokens (left_tree t pairs)
    = (postfix_tokens t ++ flat_map (fun '(op, n) => [n; op]) pairs)%list.
Proof.
  unfold left_tree.
  induction pairs as [|[op n] pairs IH]; intros t; cbn [fold_left flat_map].
  - now rewrite app_nil_r.
  - rewrite IH. cbn [postfix_tokens app]. now rewrite <- !app_assoc.
Qed.

Lemma postfix_right_tree (pairs : list (string * string)) :
  forall first,
    postfix_tokens (right_tree first pairs)
    = (first :: map snd pairs ++ rev (map fst pairs))%list.
Proof.
  induction pairs as [|[op n] pairs IH]; intros first;
    cbn [right_tree postfix_tokens map rev fst snd app]; [reflexivity|].
  rewrite IH. cbn [app]. now rewrite <- !app_assoc.
Qed.

Lemma left_chain_loop (p : Z) (pairs : list (string * string)) :
  Forall (fun '(op, n) => operator_class "L" p op /\ is_number n = true) pairs ->
  forall output stack,
    (stack = [] \/ exists op0, stack = [op0] /\ operator_class "L" p op0) ->
    infix_loop (chain_tokens pairs) output stack
    = Ok (output ++ stack
            ++ flat_map (fun '(op, n) => [n; op]) pairs)%list.
Proof.
  induction 1 as [|[op n] pairs [Hop Hn] _ IH]; intros output stack Hstack.
  - cbn [chain_tokens flat_map infix_loop]. rewrite app_nil_r.
    destruct Hstack as [-> | (op0 & -> & Hop0)];
      [now rewrite app_nil_r|].
    apply operator_class_is_operator in Hop0.
    destruct (operator_facts op0 Hop0) as (_ & Hp & _).
    cbn [drain]. unfold is_paren in Hp. now rewrite Hp.
  - cbn [chain_tokens flat_map app].
    destruct Hop as (i1 & Hi1 & Ha & Hp).
    rewrite (infix_loop_operator op i1 _ _ _ Hi1).
    assert (Hpop : pop_operators i1 stack output = ([], (output ++ stack)%list)).
    { destruct Hstack as [-> | (op0 & -> & i0 & Hi0 & Ha0 & Hp0)].
      - now rewrite app_nil_r.
      - cbn [pop_operators]. rewrite Hi0. unfold pops.
        rewrite Ha, Hp, Hp0, Z.leb_refl. reflexivity. }
    rewrite Hpop, (infix_loop_number n _ _ _ Hn).
    fold (chain_tokens pairs).
    rewrite IH by (right; exists op; split; [reflexivity | now exists i1]).
    cbn [app]. now rewrite <- !app_assoc.
Qed.

(** X18: a chain of left-associative operators of one precedence, written
    without parentheses, is converted to the postfix tokens of the
    expression grouped from the left, whatever the length of the chain. *)
Theorem left_associative_chain :
  forall p first pairs,
    is_number first = true ->
    Forall (fun '(op, n) => operator_class "L" p op /\ is_number n = true)
      pairs ->
    infix_to_postfix (first :: chain_tokens pairs)
    = Ok (postfix_tokens (left_tree (Num first) pairs)).
Proof.
  intros p first pairs Hfirst Hpairs. unfold infix_to_postfix.
  rewrite (infix_loop_number first _ _ _ Hfirst).
  rewrite (left_chain_loop p pairs Hpairs) by now left.
  now rewrite postfix_left_tree.
Qed.

Lemma left_associative_chain_witness :
  infix_to_postfix ("8" :: chain_tokens [("-", "3"); ("+", "2"); ("-", "1")])
  = Ok (postfix_tokens
          (left_tree (Num "8") [("-", "3"); ("+", "2"); ("-", "1")])).
Proof.
  apply (left_associative_chain 2 "8" [("-", "3"); ("+", "2"); ("-", "1")]).
  - reflexivity.
  - repeat constructor; eexists; repeat split; reflexivity.
Defined.

Lemma right_chain_loop (p : Z) (pairs : list (string * string)) :
  Forall (fun '(op, n) => operator_class "R" p op /\ is_number n = true) pairs ->
  forall output stack,
    Forall (operator_class "R" p) stack ->
    infix_loop (chain_tokens pairs) output stack
    = Ok (output ++ map snd pairs ++ rev (map fst pairs) ++ stack)%list.
Proof.
  induction 1 as [|[op n] pairs [Hop Hn] _ IH]; intros output stack Hstack.
  - cbn [chain_tokens flat_map infix_loop map rev app].
    apply drain_no_paren; intros Hin; rewrite Forall_forall in Hstack;
      apply Hstack, operator_class_is_operator, operator_facts in Hin;
      tauto.
  - cbn [chain_tokens flat_map app].
    destruct Hop as (i1 & Hi1 & Ha & Hp).
    rewrite (infix_loop_operator op i1 _ _ _ Hi1).
    assert (Hpop : pop_operators i1 stack output = (stack, output)).
    { destruct Hstack as [|op0 stack (i0 & Hi0 & Ha0 & Hp0) _]; [reflexivity|].
      cbn [pop_operators]. rewrite Hi0. unfold pops.
      rewrite Ha, Hp, Hp0, Z.ltb_irrefl. reflexivity. }
    rewrite Hpop, (infix_loop_number n _ _ _ Hn).
    fold (chain_tokens pairs).
    rewrite IH by (constructor; [now exists i1 | exact Hstack]).
    cbn [map rev fst snd app]. now rewrite <- !app_assoc.
Qed.

(** X19: a chain of right-associative operators of one precedence (the
    power operator), written without parentheses, is converted to the
    postfix tokens of the expression grouped from the right, whatever the
    length of the chain. *)
Theorem right_associative_chain :
  forall p first pairs,
    is_number first = true ->
    Forall (fun '(op, n) => operator_class "R" p op /\ is_number n = true)
      pairs ->
    infix_to_postfix (first :: chain_tokens pairs)
    = Ok (postfix_tokens (right_tree first pairs)).
Proof.
  intros p first pairs Hfirst Hpairs. unfold infix_to_postfix.
  rewrite (infix_loop_number first _ _ _ Hfirst).
  rewrite (right_chain_loop p pairs Hpairs) by constructor.
  now rewrite postfix_right_tree, app_nil_r.
Qed.

Lemma right_associative_chain_witness :
  infix_to_postfix ("2" :: chain_tokens [("^", "3"); ("^", "2"); ("^", "1")])
  = Ok (postfix_tokens (right_tree "2" [("^", "3"); ("^", "2"); ("^", "1")])).
Proof.
  apply (right_associative_chain 4 "2" [("^", "3"); ("^", "2"); ("^", "1")]).
  - reflexivity.
  - repeat constructor; eexists; repeat split; reflexivity.
Defined.

(** ** The sample button *)

Lemma str_rstrip_start (s : string) :
  match str_rstrip s with
  | EmptyString => True
  | String c _ => exists rest, s = String c rest
  end.
Proof.
  destruct s as [|c rest]; [exact I|]. cbn [str_rstrip].
  destruct (str_rstrip rest); [destruct (Py.isspace c)|]; eauto.
Qed.

Lemma str_strip_start (s : string) :
  match str_strip s with
  | EmptyString => True
  | String c _ => Py.isspace c = false
  end.
Proof.
  unfold str_strip.
  assert (H : match str_lstrip s with
              | EmptyString => True
              | String c _ => Py.isspace c = false
              end).
  { induction s as [|c s IH]; [exact I|]. cbn [str_lstrip].
    destruct (Py.isspace c) eqn:Hc; [exact IH | exact Hc]. }
  pose proof (str_rstrip_start (str_lstrip s)) as Hr.
  destruct (str_rstrip (str_lstrip s)) as [|c r]; [exact I|].
  destruct Hr as (rest & Heq). now rewrite Heq in H.
Qed.

Lemma list_index_Some (l : list string) (x : string) :
  forall i, list_index l x = Some i -> i < List.length l /\ nth i l "" = x.
Proof.
  induction l as [|y l IH]; intros i H; cbn [list_index] in H; [discriminate|].
  destruct (String.eqb_spec y x) as [->|_].
  - injection H as <-. simpl. split; [lia | reflexivity].
  - destruct (list_index l x) as [j|]; [|discriminate].
    injection H as <-. destruct (IH j eq_refl). simpl. split; [lia | assumption].
Qed.

(** What one press does: it inserts one of the first four samples, or the
    sixth when the field held the fifth. *)
Lemma insert_sample_cases (input_var : string) :
  In (insert_sample input_var) (firstn 4 samples)
  \/ (str_strip input_var = nth 4 samples ""
      /\ insert_sample input_var = nth 5 samples "").
Proof.
  unfold insert_sample. pose proof (str_strip_start input_var) as Hstart.
  destruct (list_index samples (str_strip input_var)) as [i|] eqn:Hi;
    [|left; left; reflexivity].
  apply list_index_Some in Hi as [Hlt Hnth].
  change (List.length samples) with 6 in *.
  destruct i as [|[|[|[|[|[|i]]]]]]; try lia.
  - left. right. left. reflexivity.
  - left. right. right. left. reflexivity.
  - left. right. right. right. left. reflexivity.
  - rewrite <- Hnth in Hstart. discriminate Hstart.
  - right. split; [now symmetry | reflexivity].
  - left. left. reflexivity.
Qed.

Lemma insert_sample_first_four (s : string) :
  In s (firstn 4 samples) -> In (insert_sample s) (firstn 4 samples).
Proof.
  intros H. cbn in H.
  destruct H as [<-|[<-|[<-|[<-|[]]]]]; vm_compute; tauto.
Qed.

(** X17: the sample button never inserts the fifth sample, the division by
    zero ["10 / (5-5)"]: the fourth sample is stored with blanks around it,
    so the stripped text of the field is not found in the list and the cycle
    starts again.  Whatever the field holds, from the second press on the
    button cycles through the first four samples only. *)
Theorem sample_button_cycle :
  forall input_var,
    insert_sample input_var <> "10 / (5-5)"
    /\ (forall n, 2 <= n -> In (press n input_var) (firstn 4 samples))
    /\ (forall n, press (S n) "" = nth (n mod 4) samples "").
Proof.
  intros input_var. split; [|split].
  - destruct (insert_sample_cases input_var) as [H | (_ & ->)];
      [|discriminate].
    intros Heq. rewrite Heq in H. cbn in H.
    destruct H as [H|[H|[H|[H|[]]]]]; discriminate H.
  - assert (H2 : In (press 2 input_var) (firstn 4 samples)).
    { cbn [press].
      destruct (insert_sample_cases input_var) as [H | (_ & ->)].
      - now apply insert_sample_first_four.
      - vm_compute. tauto. }
    intros n Hn. induction n as [|n IH]; [lia|].
    destruct (Nat.eq_dec n 1) as [->|Hne]; [exact H2|].
    cbn [press]. apply insert_sample_first_four. apply IH. lia.
  - assert (Hstep : forall k, k < 4 ->
               insert_sample (nth k samples "") = nth (S k mod 4) samples "").
    { intros k Hk. destruct k as [|[|[|[|k]]]]; try lia; vm_compute; reflexivity. }
    induction n as [|n IH]; [vm_compute; reflexivity|].
    change (press (S (S n)) "") with (insert_sample (press (S n) "")).
    rewrite IH, Hstep by (apply Nat.mod_upper_bound; lia).
    f_equal.
    replace (S (n mod 4)) with (n mod 4 + 1) by lia.
    replace (S n) with (n + 1) by lia.
    now rewrite Nat.Div0.add_mod_idemp_l.
Qed.

Lemma sample_button_cycle_witness :
  In (press 3 "10 / (5-5)") (firstn 4 samples).
Proof.
  apply (proj1 (proj2 (sample_button_cycle "10 / (5-5)")) 3). lia.
Defined.
